(** * The E5 embedding service (src/python/embedding_service.py)

    A shallow embedding of the embedding service: the values that
    [json.loads] hands to the dispatcher, the text formatter, the pooling
    and normalisation arithmetic (over the real numbers, i.e. in exact
    arithmetic), the two module globals [tokenizer] and [model] with their
    lazy initialiser, the command dispatcher and the read loop of [main].

    The tokenizer, the transformer and the JSON parser are external
    libraries: they are carried as data (records of functions), never
    fixed. *)

From Stdlib Require Import List String Ascii ZArith QArith Reals Lia Lra Bool.
From Stdlib Require Import DecimalString.
Import ListNotations.

Set Implicit Arguments.
Set Warnings "-register-all".

Local Open Scope string_scope.
Local Open Scope list_scope.

(** ** Python values *)

(** What [json.loads] can return: [None], [bool], [int], [float], [str],
    [list] and [dict].  A finite float is carried as the rational it
    denotes; a dict as its items in insertion order, keys unique. *)
Inductive json : Type :=
| JNull
| JBool (b : bool)
| JInt (z : Z)
| JFloat (q : Q)
| JStr (s : string)
| JArr (items : list json)
| JObj (fields : list (string * json)).

(** [d.get(key)]: the value bound to [key], Python's [None] being the
    [None] of the option only for an absent key. *)
Fixpoint dict_lookup (key : string) (fields : list (string * json)) : option json :=
  match fields with
  | [] => None
  | (k, v) :: rest => if String.eqb k key then Some v else dict_lookup key rest
  end.

(** [d.get(key, default)]. *)
Definition dict_get (key : string) (default : json) (fields : list (string * json)) : json :=
  match dict_lookup key fields with
  | Some v => v
  | None => default
  end.

(** Truth value of an object, as [if x:] and [not x] test it. *)
Definition truthy (v : json) : bool :=
  match v with
  | JNull => false
  | JBool b => b
  | JInt z => negb (Z.eqb z 0)
  | JFloat q => negb (Qeq_bool q 0)
  | JStr s => negb (String.eqb s EmptyString)
  | JArr items => match items with [] => false | _ :: _ => true end
  | JObj fields => match fields with [] => false | _ :: _ => true end
  end.

(** [isinstance(v, list)]. *)
Definition is_list (v : json) : bool :=
  match v with
  | JArr _ => true
  | _ => false
  end.

(** [type(v).__name__]. *)
Definition type_name (v : json) : string :=
  match v with
  | JNull => "NoneType"
  | JBool _ => "bool"
  | JInt _ => "int"
  | JFloat _ => "float"
  | JStr _ => "str"
  | JArr _ => "list"
  | JObj _ => "dict"
  end.

(** [v == s] for a string literal [s]: only a [str] equals a [str]. *)
Definition eq_str (v : json) (s : string) : bool :=
  match v with
  | JStr t => String.eqb t s
  | _ => false
  end.

(** [str(v)], which is also what an f-string field [{v}] inserts.  The
    [repr] of floats and of containers is the interpreter's business and
    is taken as a parameter. *)
Definition py_str (repr : json -> string) (v : json) : string :=
  match v with
  | JNull => "None"
  | JBool true => "True"
  | JBool false => "False"
  | JInt z => NilZero.string_of_int (Z.to_int z)
  | JStr s => s
  | other => repr other
  end.

(** ** The text formatter *)

Definition newline : string := String (ascii_of_nat 10) EmptyString.

Definition task_description : string :=
  "Given a web search query, retrieve relevant passages that answer the query".

(** [format_text_for_embedding(text, is_query=False)].  The query branch
    builds the f-string [f'Instruct: {task_description}\nQuery: {text}'];
    the passage branch returns its argument itself, whatever it is. *)
Definition format_text_for_embedding (repr : json -> string)
    (text : json) (is_query : json) : json :=
  if truthy is_query then
    JStr ("Instruct: " ++ task_description ++ newline ++ "Query: " ++ py_str repr text)
  else
    text.

(** The prefix the specification spells out, as one literal. *)
Definition instruction_prefix : string :=
  "Instruct: Given a web search query, retrieve relevant passages that answer the query"
  ++ newline ++ "Query: ".

(** ** Tensors

    Arithmetic is over [R]: the service computes in floating point, the
    model computes in exact arithmetic.  A rank-2 tensor is a list of rows;
    the hidden states, of shape (batch, sequence, hidden), are a list of
    rows of vectors together with the size of the last axis, which a
    tensor keeps even when the sequence axis is empty. *)

Local Open Scope R_scope.

Definition Vec : Type := list R.

Record HiddenStates : Type := mkHidden {
  hidden_dim : nat;
  hidden : list (list Vec)
}.

Definition vzero (d : nat) : Vec := repeat 0 d.

Fixpoint vadd (u v : Vec) : Vec :=
  match u, v with
  | x :: u', y :: v' => (x + y) :: vadd u' v'
  | _, _ => []
  end.

(** [t.sum(dim=1)], one batch row: the vectors of the sequence axis added
    up, starting from the zero vector of the hidden size. *)
Definition sum_seq (d : nat) (row : list Vec) : Vec :=
  fold_right vadd (vzero d) row.

(** [mask.sum(dim=1)], one batch row: the mask entries added up as
    integers. *)
Definition mask_sum (bits : list Z) : Z := fold_right Z.add 0%Z bits.

(** [h.masked_fill(~mask[..., None].bool(), 0.0)], one batch row: [.bool()]
    is true on a non-zero entry, so the fill hits the positions whose
    entry is zero, on every component. *)
Fixpoint masked_fill_row (h : list Vec) (bits : list Z) : list Vec :=
  match h, bits with
  | v :: h', b :: bits' =>
      (if Z.eqb b 0 then map (fun _ => 0) v else v) :: masked_fill_row h' bits'
  | _, _ => []
  end.

Definition pool_row (d : nat) (h : list Vec) (bits : list Z) : Vec :=
  let last_hidden := masked_fill_row h bits in
  map (fun x => x / IZR (mask_sum bits)) (sum_seq d last_hidden).

Fixpoint pool_rows (d : nat) (hs : list (list Vec)) (mask : list (list Z)) : list Vec :=
  match hs, mask with
  | h :: hs', bits :: mask' => pool_row d h bits :: pool_rows d hs' mask'
  | _, _ => []
  end.

(** [average_pool(last_hidden_states, attention_mask)].  The rows are
    paired off; torch refuses tensors whose shapes do not match, so the
    statements about this function assume matching shapes. *)
Definition average_pool (last_hidden_states : HiddenStates)
    (attention_mask : list (list Z)) : list Vec :=
  pool_rows (hidden_dim last_hidden_states) (hidden last_hidden_states) attention_mask.

(** Euclidean norm of a vector. *)
Definition sum_squares (v : Vec) : R := fold_right (fun x acc => x * x + acc) 0 v.

Definition l2_norm (v : Vec) : R := sqrt (sum_squares v).

(** [F.normalize(x, p=2, dim=1)] of torch, with its default [eps=1e-12]:
    each row is divided by [max(norm, eps)]. *)
Definition normalize_eps : R := / 1000000000000.

Definition normalize_row (v : Vec) : Vec :=
  map (fun x => x / Rmax (l2_norm v) normalize_eps) v.

Definition normalize (rows : list Vec) : list Vec := map normalize_row rows.

(** *** Masked mean pooling as the specification words it

    Entry by entry: component [k] of the output of a row is the sum, over
    the positions [j] of the sequence axis, of component [k] of the hidden
    vector at [j], or of zero where the mask bit at [j] is 0; divided by
    the number of positions whose mask bit is 1. *)
Definition rsum (xs : list R) : R := fold_right Rplus 0 xs.

Definition count_ones (bits : list Z) : nat :=
  List.length (filter (fun b => Z.eqb b 1) bits).

Definition masked_mean_spec (d : nat) (h : list Vec) (bits : list Z) : Vec :=
  map (fun k =>
         rsum (map (fun j => if Z.eqb (nth j bits 0%Z) 0 then 0
                             else nth k (nth j h []) 0)
                   (seq 0 (List.length h)))
         / INR (count_ones bits))
      (seq 0 d).

(** Matching shapes: as many mask rows as hidden rows, each pair of the
    same sequence length, every hidden vector of the hidden size. *)
Definition shapes_match (hs : HiddenStates) (mask : list (list Z)) : Prop :=
  Forall2 (fun h bits =>
             List.length h = List.length bits /\
             Forall (fun v : Vec => List.length v = hidden_dim hs) h)
          (hidden hs) mask.

(** An attention mask holds bits. *)
Definition is_bit (b : Z) : Prop := b = 0%Z \/ b = 1%Z.

Definition mask_bits (mask : list (list Z)) : Prop := Forall (Forall is_bit) mask.

(** ** The external collaborators *)

(** A raised [Exception], with its [str(e)]. *)
Inductive exn : Type := Exn (msg : string).

Definition exn_msg (e : exn) : string := match e with Exn msg => msg end.

(** What the tokenizer returns: token ids and attention mask, one row per
    text. *)
Record EncodedBatch : Type := mkEncoded {
  input_ids : list (list Z);
  attention_mask : list (list Z)
}.

(** The loaded tokenizer.  [tokenize_one n text] is the id row of one text,
    special tokens included, truncated to at most [n] ids;
    [tokenize_other] is what the call does with an argument that is
    neither a [str] nor a non-empty list of [str]. *)
Record Tokenizer : Type := mkTokenizer {
  tokenize_one : nat -> string -> list Z;
  pad_token_id : Z;
  tokenize_other : json -> exn + EncodedBatch
}.

(** The loaded transformer: the [last_hidden_state] of the forward pass on the encoded batch,
    or the exception the forward pass raises. *)
Record Model : Type := mkModel {
  model_forward : EncodedBatch -> exn + HiddenStates
}.

(** Modelled from the spec: the tokenizer call with [padding=True,
    truncation=True, return_tensors='pt'] on a batch of texts (section 4.2,
    step 2).  Every text is tokenized on its own, the rows are padded on
    the right to the longest row of the batch, and the mask has 1 on the
    ids of the text and 0 on the padding. *)
Definition encode_batch (tk : Tokenizer) (max_length : nat) (texts : list string)
    : EncodedBatch :=
  let rows := map (tokenize_one tk max_length) texts in
  let width := list_max (map (@List.length Z) rows) in
  {| input_ids :=
       map (fun r => (r ++ repeat (pad_token_id tk) (width - List.length r))%list) rows;
     attention_mask :=
       map (fun r => (repeat 1%Z (List.length r) ++ repeat 0%Z (width - List.length r))%list)
           rows |}.

Fixpoint strings_of (items : list json) : option (list string) :=
  match items with
  | [] => Some []
  | JStr s :: rest =>
      match strings_of rest with
      | Some ss => Some (s :: ss)
      | None => None
      end
  | _ :: _ => None
  end.

(** [tokenizer(x, max_length=..., padding=True, truncation=True,
    return_tensors='pt')]: a [str] is a batch of one. *)
Definition tokenizer_call (tk : Tokenizer) (x : json) (max_length : nat)
    : exn + EncodedBatch :=
  match x with
  | JStr s => inr (encode_batch tk max_length [s])
  | JArr ((_ :: _) as items) =>
      match strings_of items with
      | Some texts => inr (encode_batch tk max_length texts)
      | None => tokenize_other tk x
      end
  | _ => tokenize_other tk x
  end.

(** Outcome of [json.loads(line)]. *)
Inductive loads_result : Type :=
| Loaded (value : json)
| JSONDecodeError
| OtherError (e : exn).

(** Everything the process gets from outside: the interpreter's [repr],
    the JSON parser and the two [from_pretrained] loaders, which raise
    when the weights cannot be resolved. *)
Record Env : Type := mkEnv {
  py_repr : json -> string;
  json_loads : string -> loads_result;
  AutoTokenizer_from_pretrained : string -> exn + Tokenizer;
  AutoModel_from_pretrained : string -> exn + Model
}.

(** ** State, events and the monad of the service *)

(** The two module globals. *)
Record State : Type := mkState {
  tokenizer : option Tokenizer;
  model : option Model
}.

Definition initial_state : State := {| tokenizer := None; model := None |}.

(** The dict a command is answered with. *)
Inductive Response : Type :=
| RStatus (status : string)
| REmbedding (embedding : Vec)
| REmbeddings (embeddings : list Vec)
| RError (error : string).

(** What the process does to the outside, in order. *)
Inductive Event : Type :=
| Stderr (text : string)
| LoadTokenizer (name : string)
| LoadModel (name : string)
| ReadLine (line : string)
| Stdout (r : Response).

Record Outcome (A : Type) : Type := mkOutcome {
  result : exn + A;
  final : State;
  events : list Event
}.

Definition M (A : Type) : Type := State -> Outcome A.

Definition ret {A} (a : A) : M A :=
  fun st => {| result := inr a; final := st; events := [] |}.

Definition raise {A} (e : exn) : M A :=
  fun st => {| result := inl e; final := st; events := [] |}.

Definition bind {A B} (c : M A) (k : A -> M B) : M B :=
  fun st =>
    let o := c st in
    match result o with
    | inl e => {| result := inl e; final := final o; events := events o |}
    | inr a =>
        let o' := k a (final o) in
        {| result := result o'; final := final o'; events := (events o ++ events o')%list |}
    end.

(** [try: c  except Exception as e: h(e)]. *)
Definition catch {A} (c : M A) (h : exn -> M A) : M A :=
  fun st =>
    let o := c st in
    match result o with
    | inl e =>
        let o' := h e (final o) in
        {| result := result o'; final := final o'; events := (events o ++ events o')%list |}
    | inr a => o
    end.

Definition emit (ev : Event) : M unit :=
  fun st => {| result := inr tt; final := st; events := [ev] |}.

Definition get : M State := fun st => {| result := inr st; final := st; events := [] |}.

Definition put (st' : State) : M unit :=
  fun _ => {| result := inr tt; final := st'; events := [] |}.

Definition lift {A} (r : exn + A) : M A :=
  match r with
  | inl e => raise e
  | inr a => ret a
  end.

Declare Scope service_scope.
Delimit Scope service_scope with service.
Notation "x <- c ;; k" := (bind c (fun x => k))
  (at level 61, c at next level, right associativity) : service_scope.
Notation "c ;; k" := (bind c (fun _ => k))
  (at level 61, right associativity) : service_scope.
Local Open Scope service_scope.

(** ** The service *)

Definition MODEL_NAME : string := "intfloat/multilingual-e5-large-instruct".

Definition set_tokenizer (tk : Tokenizer) : M unit :=
  st <- get ;; put {| tokenizer := Some tk; model := model st |}.

Definition set_model (md : Model) : M unit :=
  st <- get ;; put {| tokenizer := tokenizer st; model := Some md |}.

(** [initialize_model()]: loads both objects unless both globals are set.
    The tokenizer global is assigned before the model is loaded. *)
Definition initialize_model (env : Env) : M unit :=
  st <- get ;;
  match tokenizer st, model st with
  | Some _, Some _ => ret tt
  | _, _ =>
      emit (Stderr "Initializing E5 model...") ;;
      emit (LoadTokenizer MODEL_NAME) ;;
      tk <- lift (AutoTokenizer_from_pretrained env MODEL_NAME) ;;
      set_tokenizer tk ;;
      emit (LoadModel MODEL_NAME) ;;
      md <- lift (AutoModel_from_pretrained env MODEL_NAME) ;;
      set_model md ;;
      emit (Stderr ("Model initialized: " ++ MODEL_NAME))
  end.

(** Reading a global in order to call it: [None] is not callable. *)
Definition the_tokenizer : M Tokenizer :=
  st <- get ;;
  match tokenizer st with
  | Some tk => ret tk
  | None => raise (Exn "'NoneType' object is not callable")
  end.

Definition the_model : M Model :=
  st <- get ;;
  match model st with
  | Some md => ret md
  | None => raise (Exn "'NoneType' object is not callable")
  end.

(** [generate_embedding(text, is_query=False)]. *)
Definition generate_embedding (env : Env) (text : json) (is_query : json) : M Vec :=
  initialize_model env ;;
  let input_text := format_text_for_embedding (py_repr env) text is_query in
  tk <- the_tokenizer ;;
  encoded_input <- lift (tokenizer_call tk input_text 512) ;;
  md <- the_model ;;
  model_output <- lift (model_forward md encoded_input) ;;
  let embedding := average_pool model_output (attention_mask encoded_input) in
  let embedding := normalize embedding in
  match embedding with
  | v :: _ => ret v
  | [] => raise (Exn "index 0 is out of bounds for dimension 0 with size 0")
  end.

(** [generate_embeddings(texts, is_query=False)]. *)
Definition generate_embeddings (env : Env) (texts : json) (is_query : json)
    : M (list Vec) :=
  initialize_model env ;;
  if negb (truthy texts) || negb (is_list texts) then
    raise (Exn "Texts must be a non-empty list of strings")
  else
    let items := match texts with JArr items => items | _ => [] end in
    let input_texts :=
      JArr (map (fun text => format_text_for_embedding (py_repr env) text is_query) items) in
    tk <- the_tokenizer ;;
    encoded_input <- lift (tokenizer_call tk input_texts 512) ;;
    md <- the_model ;;
    model_output <- lift (model_forward md encoded_input) ;;
    let embeddings := average_pool model_output (attention_mask encoded_input) in
    let embeddings := normalize embeddings in
    ret embeddings.

(** [obj.get(key, default)] on whatever [json.loads] returned: only a dict
    has the method. *)
Definition py_get (obj : json) (key : string) (default : json) : M json :=
  match obj with
  | JObj fields => ret (dict_get key default fields)
  | other => raise (Exn ("'" ++ type_name other ++ "' object has no attribute 'get'"))
  end.

(** The body of the [try] of [process_command]. *)
Definition process_command_body (env : Env) (command_json : json) : M Response :=
  command <- py_get command_json "command" JNull ;;
  if eq_str command "initialize" then
    initialize_model env ;;
    ret (RStatus "initialized")
  else if eq_str command "generate_embedding" then
    text <- py_get command_json "text" JNull ;;
    is_query <- py_get command_json "is_query" (JBool false) ;;
    if negb (truthy text) then
      ret (RError "No text provided")
    else
      embedding <- generate_embedding env text is_query ;;
      ret (REmbedding embedding)
  else if eq_str command "generate_embeddings" then
    texts <- py_get command_json "texts" JNull ;;
    is_query <- py_get command_json "is_query" (JBool false) ;;
    if negb (truthy texts) || negb (is_list texts) then
      ret (RError "No texts provided or invalid format")
    else
      embeddings <- generate_embeddings env texts is_query ;;
      ret (REmbeddings embeddings)
  else
    ret (RError ("Unknown command: " ++ py_str (py_repr env) command)).

(** [process_command(command_json)]. *)
Definition process_command (env : Env) (command_json : json) : M Response :=
  catch (process_command_body env command_json)
        (fun e => ret (RError (exn_msg e))).

(** One turn of the [for line in sys.stdin] loop of [main]. *)
Definition serve_line (env : Env) (line : string) : M unit :=
  emit (ReadLine line) ;;
  match json_loads env line with
  | Loaded command_json =>
      response <- process_command env command_json ;;
      emit (Stdout response)
  | JSONDecodeError => emit (Stdout (RError "Invalid JSON"))
  | OtherError e => emit (Stdout (RError (exn_msg e)))
  end.

Fixpoint serve (env : Env) (lines : list string) : M unit :=
  match lines with
  | [] => ret tt
  | line :: rest => serve_line env line ;; serve env rest
  end.

(** [main()], on the lines standard input will deliver. *)
Definition main (env : Env) (lines : list string) : M unit :=
  emit (Stderr "E5 Embedding Service started") ;;
  initialize_model env ;;
  serve env lines.

(** A run of the process: [main] from the state the module is imported
    in. *)
Definition run (env : Env) (lines : list string) : Outcome unit :=
  main env lines initial_state.

(** ** Notions the statements use *)

(** Both globals are set: [initialize_model] has nothing to do. *)
Definition ready (st : State) : Prop :=
  tokenizer st <> None /\ model st <> None.

Definition loaded (tk : Tokenizer) (md : Model) : State :=
  {| tokenizer := Some tk; model := Some md |}.

(** The environment resolves the model name to [tk] and [md]. *)
Definition provides (env : Env) (tk : Tokenizer) (md : Model) : Prop :=
  AutoTokenizer_from_pretrained env MODEL_NAME = inr tk /\
  AutoModel_from_pretrained env MODEL_NAME = inr md.

(** A state a process working with [tk] and [md] can be in: each global
    is unset or holds the object of the fixed model. *)
Definition agrees (tk : Tokenizer) (md : Model) (st : State) : Prop :=
  (tokenizer st = None \/ tokenizer st = Some tk) /\
  (model st = None \/ model st = Some md).

(** The contract of the external model that batching relies on.  On every
    batch of texts the forward pass returns hidden states of the shape of
    the batch; and what it returns for a text at the positions of that
    text's own tokens is what it returns for the text alone: neither the
    padding nor the other rows of the batch reach a real token. *)
Definition forward_shaped (tk : Tokenizer) (md : Model) : Prop :=
  forall texts, texts <> [] ->
    exists hs,
      model_forward md (encode_batch tk 512 texts) = inr hs /\
      shapes_match hs (attention_mask (encode_batch tk 512 texts)).

Definition padding_invariant (tk : Tokenizer) (md : Model) : Prop :=
  forall texts i hs hs1,
    (i < List.length texts)%nat ->
    model_forward md (encode_batch tk 512 texts) = inr hs ->
    model_forward md (encode_batch tk 512 [nth i texts EmptyString]) = inr hs1 ->
    hidden_dim hs1 = hidden_dim hs /\
    forall j, (j < List.length (tokenize_one tk 512 (nth i texts EmptyString)))%nat ->
      nth j (nth i (hidden hs) []) [] = nth j (nth 0 (hidden hs1) []) [].

(** The rows pooled for an input in a state: what the tokenizer and the
    forward pass of the loaded model give for it, averaged. *)
Definition pooled_by (st : State) (input : json) (ps : list Vec) : Prop :=
  exists tk md enc hs,
    tokenizer st = Some tk /\ model st = Some md /\
    tokenizer_call tk input 512 = inr enc /\
    model_forward md enc = inr hs /\
    ps = average_pool hs (attention_mask enc).


(** The string the formatter makes of a string. *)
Definition formatted (is_query : json) (text : string) : string :=
  if truthy is_query then instruction_prefix ++ text else text.

(** Traces. *)
Definition is_load (ev : Event) : bool :=
  match ev with
  | LoadTokenizer _ | LoadModel _ => true
  | _ => false
  end.

Definition is_read (ev : Event) : bool :=
  match ev with
  | ReadLine _ => true
  | _ => false
  end.

(** Lazy initialisation of a run: every load has a command line read
    before it. *)
Definition lazily_initialized (tr : list Event) : Prop :=
  forall i ev, nth_error tr i = Some ev -> is_load ev = true ->
    exists j line, (j < i)%nat /\ nth_error tr j = Some (ReadLine line).

(** Eager initialisation of a run: every load comes before every read. *)
Definition loads_precede_reads (tr : list Event) : Prop :=
  forall i j ev line,
    nth_error tr i = Some ev -> is_load ev = true ->
    nth_error tr j = Some (ReadLine line) -> (i < j)%nat.

(** The responses written to standard output, in order. *)
Definition responses (tr : list Event) : list Response :=
  flat_map (fun ev => match ev with Stdout r => [r] | _ => [] end) tr.



(** The request fields of the three commands. *)
Definition has_command (name : string) (fields : list (string * json)) : Prop :=
  dict_lookup "command" fields = Some (JStr name).

(** A computation that neither changes the globals nor does anything
    visible. *)
Definition quiet {A} (c : M A) : Prop :=
  forall st, final (c st) = st /\ events (c st) = [].

(** The events [initialize_model] can produce, in order; a failed load
    cuts the list short. *)
Definition init_events : list Event :=
  [Stderr "Initializing E5 model..."; LoadTokenizer MODEL_NAME;
   LoadModel MODEL_NAME; Stderr ("Model initialized: " ++ MODEL_NAME)].

(** The four ways a call of [initialize_model()] can go. *)
Definition initialize_model_closed (env : Env) (st : State) : Outcome unit :=
  match tokenizer st, model st with
  | Some _, Some _ => {| result := inr tt; final := st; events := [] |}
  | _, _ =>
      match AutoTokenizer_from_pretrained env MODEL_NAME with
      | inl e => {| result := inl e; final := st; events := firstn 2 init_events |}
      | inr tk =>
          match AutoModel_from_pretrained env MODEL_NAME with
          | inl e =>
              {| result := inl e;
                 final := {| tokenizer := Some tk; model := model st |};
                 events := firstn 3 init_events |}
          | inr md =>
              {| result := inr tt;
                 final := {| tokenizer := Some tk; model := Some md |};
                 events := init_events |}
          end
      end
  end.

(** ** A small model, to run the service on

    One id per character after a start token 0, pad id 1; the hidden
    vector of a token is [(id, 1)]. *)
Definition toy_tokenize (max_length : nat) (text : string) : list Z :=
  firstn max_length
         (0%Z :: map (fun c => Z.of_nat (nat_of_ascii c)) (list_ascii_of_string text)).

Definition toy_tokenizer : Tokenizer :=
  {| tokenize_one := toy_tokenize;
     pad_token_id := 1%Z;
     tokenize_other := fun _ => inl (Exn "text input must be of type str") |}.

Definition toy_model : Model :=
  {| model_forward := fun enc =>
       inr {| hidden_dim := 2;
              hidden := map (map (fun id => [IZR id; 1])) (input_ids enc) |} |}.


(** A parser that knows two lines: the empty object and the initialize
    command. *)
Definition dquote : string := String (ascii_of_nat 34) EmptyString.

Definition initialize_line : string :=
  "{" ++ dquote ++ "command" ++ dquote ++ ": " ++ dquote ++ "initialize" ++ dquote ++ "}".

Definition toy_loads (line : string) : loads_result :=
  if String.eqb line "{}" then Loaded (JObj [])
  else if String.eqb line initialize_line
       then Loaded (JObj [("command", JStr "initialize")])
  else JSONDecodeError.

Definition toy_env : Env :=
  {| py_repr := fun _ => "<repr>";
     json_loads := toy_loads;
     AutoTokenizer_from_pretrained := fun _ => inr toy_tokenizer;
     AutoModel_from_pretrained := fun _ => inr toy_model |}.


(** An environment in which the tokenizer resolves and the weights of the
    model do not. *)
Definition failing_env : Env :=
  {| py_repr := fun _ => "<repr>";
     json_loads := toy_loads;
     AutoTokenizer_from_pretrained := fun _ => inr toy_tokenizer;
     AutoModel_from_pretrained := fun _ => inl (Exn "weights not found") |}.

(** What the two generators compute once the model is initialised, in
    closed form: tokenizer call, forward pass, pooling and normalisation
    on the globals of a state. *)
Definition pipeline (st : State) (input : json) : exn + list Vec :=
  match tokenizer st with
  | None => inl (Exn "'NoneType' object is not callable")
  | Some tk =>
      match tokenizer_call tk input 512 with
      | inl e => inl e
      | inr enc =>
          match model st with
          | None => inl (Exn "'NoneType' object is not callable")
          | Some md =>
              match model_forward md enc with
              | inl e => inl e
              | inr hs => inr (normalize (average_pool hs (attention_mask enc)))
              end
          end
      end
  end.

(** [embedding[0]] of a result of the pipeline. *)
Definition first_row (r : exn + list Vec) : exn + Vec :=
  match r with
  | inl e => inl e
  | inr [] => inl (Exn "index 0 is out of bounds for dimension 0 with size 0")
  | inr (v :: _) => inr v
  end.

(** * Properties *)

Unset Implicit Arguments.

(** ** The monad and the initialiser *)

Lemma outcome_eq A (o : Outcome A) :
  o = {| result := result o; final := final o; events := events o |}.
Proof. destruct o; reflexivity. Qed.

Lemma initialize_model_run env st :
  initialize_model env st = initialize_model_closed env st.
Proof.
  unfold initialize_model_closed, initialize_model.
  destruct st as [t m].
  destruct (AutoTokenizer_from_pretrained env MODEL_NAME) as [e|tk'];
    destruct (AutoModel_from_pretrained env MODEL_NAME) as [e'|md'];
    destruct t as [tk|], m as [md|]; reflexivity.
Qed.

Lemma initialize_model_ready env st :
  ready st ->
  initialize_model env st = {| result := inr tt; final := st; events := [] |}.
Proof.
  intros [Htk Hmd]. rewrite initialize_model_run. unfold initialize_model_closed.
  destruct (tokenizer st) as [tk|]; [|congruence].
  destruct (model st) as [md|]; [|congruence].
  reflexivity.
Qed.

Lemma initialize_model_success env st :
  result (initialize_model env st) = inr tt ->
  ready (final (initialize_model env st)).
Proof.
  rewrite initialize_model_run. unfold initialize_model_closed, ready.
  destruct (tokenizer st) as [tk|] eqn:Htk, (model st) as [md|] eqn:Hmd;
    try (destruct (AutoTokenizer_from_pretrained env MODEL_NAME) as [e|tk'];
         [discriminate|];
         destruct (AutoModel_from_pretrained env MODEL_NAME) as [e|md'];
         [discriminate|]);
    cbn [result final tokenizer model]; intros _; split; congruence.
Qed.

Lemma dict_get_command name fields :
  has_command name fields -> dict_get "command" JNull fields = JStr name.
Proof. unfold has_command, dict_get. intros ->. reflexivity. Qed.

(** ** The formatter *)

(** C4: on a string, the query branch returns the fixed two-line
    instruction followed by the text, the passage branch returns the text
    itself; the function is defined on every string. *)
Theorem format_text_contract (repr : json -> string) (text : string) :
  format_text_for_embedding repr (JStr text) (JBool true)
    = JStr (instruction_prefix ++ text) /\
  format_text_for_embedding repr (JStr text) (JBool false) = JStr text.
Proof. split; reflexivity. Qed.

(** ** The dispatcher *)

(** C10: an object without a [command] field is answered through the
    unknown-command branch, with [None] for the absent value, and nothing
    else happens. *)
Theorem missing_command_is_unknown (env : Env) (st : State)
    (fields : list (string * json)) :
  dict_lookup "command" fields = None ->
  process_command env (JObj fields) st
    = {| result := inr (RError "Unknown command: None"); final := st; events := [] |}.
Proof.
  intros H. unfold process_command, process_command_body, catch, bind, py_get, dict_get.
  rewrite H. reflexivity.
Qed.

Lemma missing_command_is_unknown_witness :
  process_command toy_env (JObj []) initial_state
    = {| result := inr (RError "Unknown command: None");
         final := initial_state; events := [] |}.
Proof. apply (missing_command_is_unknown toy_env initial_state []). reflexivity. Defined.

(** C6, as the code has it: a [generate_embeddings] command whose [texts]
    is missing, falsy (null, an empty list, ...) or not a list is refused
    with the fixed message before the pipeline is entered: the state is
    untouched and nothing is loaded or printed.  A non-empty list goes to
    the pipeline, whatever its elements are. *)
Theorem invalid_texts_rejected (env : Env) (st : State)
    (fields : list (string * json)) :
  has_command "generate_embeddings" fields ->
  (truthy (dict_get "texts" JNull fields) = false \/
   is_list (dict_get "texts" JNull fields) = false ->
   process_command env (JObj fields) st
     = {| result := inr (RError "No texts provided or invalid format");
          final := st; events := [] |}) /\
  (forall item items, dict_get "texts" JNull fields = JArr (item :: items) ->
   let o := process_command env (JObj fields) st in
   let p := generate_embeddings env (JArr (item :: items))
              (dict_get "is_query" (JBool false) fields) st in
   result o = match result p with
              | inl e => inr (RError (exn_msg e))
              | inr embeddings => inr (REmbeddings embeddings)
              end /\
   final o = final p /\ events o = events p).
Proof.
  intros Hc. apply dict_get_command in Hc.
  split.
  - intros Hbad.
    unfold process_command, process_command_body, catch, bind, py_get.
    cbn. rewrite Hc. cbn.
    destruct Hbad as [H|H]; rewrite H; cbn; try reflexivity.
    rewrite orb_true_r. reflexivity.
  - intros item items Ht.
    unfold process_command, process_command_body, catch, bind, py_get.
    cbn. rewrite Hc. cbn. rewrite Ht. cbn.
    destruct (result (generate_embeddings env (JArr (item :: items))
                        (dict_get "is_query" (JBool false) fields) st));
      cbn; rewrite ?app_nil_r; auto.
Qed.

Lemma invalid_texts_rejected_witness :
  process_command toy_env
      (JObj [("command", JStr "generate_embeddings"); ("texts", JArr [])])
      initial_state
    = {| result := inr (RError "No texts provided or invalid format");
         final := initial_state; events := [] |}.
Proof.
  apply (invalid_texts_rejected toy_env initial_state
           [("command", JStr "generate_embeddings"); ("texts", JArr [])]).
  - reflexivity.
  - left. reflexivity.
Defined.

(** C6, as the claim has it, fails: a list whose only element is a
    boolean, sent as a query, is formatted into a string and embedded; the
    answer is a success payload and the model has been loaded for it. *)
Lemma nonstring_texts_embedded :
  let command_json :=
    JObj [("command", JStr "generate_embeddings");
          ("texts", JArr [JBool true]);
          ("is_query", JBool true)] in
  let o := process_command toy_env command_json initial_state in
  result o <> inr (RError "No texts provided or invalid format") /\
  (exists embeddings, result o = inr (REmbeddings embeddings)) /\
  final o = loaded toy_tokenizer toy_model.
Proof.
  cbn. split; [discriminate|]. split; [eexists; reflexivity | reflexivity].
Qed.

(** C8: once both globals are set, an [initialize] command changes
    neither, loads nothing and answers [initialized]; and whenever an
    [initialize] command has answered [initialized], the next one answers
    the same and leaves the state as it found it. *)
Theorem initialize_idempotent (env env' : Env) (st : State)
    (fields fields' : list (string * json)) :
  has_command "initialize" fields ->
  has_command "initialize" fields' ->
  (ready st ->
   process_command env (JObj fields) st
     = {| result := inr (RStatus "initialized"); final := st; events := [] |}) /\
  (result (process_command env (JObj fields) st) = inr (RStatus "initialized") ->
   process_command env' (JObj fields') (final (process_command env (JObj fields) st))
     = {| result := inr (RStatus "initialized");
          final := final (process_command env (JObj fields) st);
          events := [] |}).
Proof.
  intros Hc Hc'. apply dict_get_command in Hc, Hc'.
  assert (Hready : forall e flds s, dict_get "command" JNull flds = JStr "initialize" ->
            ready s ->
            process_command e (JObj flds) s
              = {| result := inr (RStatus "initialized"); final := s; events := [] |}).
  { intros e flds s Hf Hr.
    unfold process_command, process_command_body, catch, bind, py_get.
    cbn -[initialize_model]. rewrite Hf. cbn -[initialize_model].
    rewrite (initialize_model_ready e s Hr). reflexivity. }
  split.
  - apply Hready; assumption.
  - intros Hok. apply Hready; [assumption|].
    revert Hok.
    unfold process_command, process_command_body, catch, bind, py_get.
    cbn -[initialize_model]. rewrite Hc. cbn -[initialize_model].
    pose proof (initialize_model_success env st) as Hs.
    destruct (result (initialize_model env st)) as [e|[]]; cbn -[initialize_model].
    + discriminate.
    + intros _. apply Hs. reflexivity.
Qed.

Lemma initialize_idempotent_witness :
  let cmd := JObj [("command", JStr "initialize")] in
  process_command toy_env cmd (loaded toy_tokenizer toy_model)
    = {| result := inr (RStatus "initialized");
         final := loaded toy_tokenizer toy_model; events := [] |} /\
  process_command toy_env cmd (final (process_command toy_env cmd initial_state))
    = {| result := inr (RStatus "initialized");
         final := final (process_command toy_env cmd initial_state);
         events := [] |}.
Proof.
  pose proof (initialize_idempotent toy_env toy_env (loaded toy_tokenizer toy_model)
                [("command", JStr "initialize")] [("command", JStr "initialize")]
                eq_refl eq_refl) as [H1 _].
  pose proof (initialize_idempotent toy_env toy_env initial_state
                [("command", JStr "initialize")] [("command", JStr "initialize")]
                eq_refl eq_refl) as [_ H2].
  split.
  - apply H1. split; discriminate.
  - apply H2. reflexivity.
Defined.

(** ** Quiet computations *)

Lemma quiet_ret {A} (a : A) : quiet (ret a).
Proof. intros st. split; reflexivity. Qed.

Lemma quiet_raise {A} (e : exn) : quiet (@raise A e).
Proof. intros st. split; reflexivity. Qed.

Lemma quiet_lift {A} (r : exn + A) : quiet (lift r).
Proof. destruct r; [apply quiet_raise | apply quiet_ret]. Qed.

Lemma quiet_get : quiet get.
Proof. intros st. split; reflexivity. Qed.

Lemma bind_quiet_r {A B} (c : M A) (k : A -> M B) (st : State) :
  (forall a, quiet (k a)) ->
  final (bind c k st) = final (c st) /\ events (bind c k st) = events (c st).
Proof.
  intros Hk. unfold bind.
  destruct (result (c st)) as [e|a]; cbn; [auto|].
  destruct (Hk a (final (c st))) as [-> ->]. rewrite app_nil_r. auto.
Qed.

Lemma quiet_bind {A B} (c : M A) (k : A -> M B) :
  quiet c -> (forall a, quiet (k a)) -> quiet (bind c k).
Proof.
  intros Hc Hk st. destruct (bind_quiet_r c k st Hk) as [-> ->]. apply Hc.
Qed.

Lemma quiet_the_tokenizer : quiet the_tokenizer.
Proof.
  apply quiet_bind; [apply quiet_get|].
  intros st. destruct (tokenizer st); [apply quiet_ret | apply quiet_raise].
Qed.

Lemma quiet_the_model : quiet the_model.
Proof.
  apply quiet_bind; [apply quiet_get|].
  intros st. destruct (model st); [apply quiet_ret | apply quiet_raise].
Qed.

Lemma quiet_py_get obj key default : quiet (py_get obj key default).
Proof. destruct obj; first [apply quiet_ret | apply quiet_raise]. Qed.

Create HintDb quiet.

#[local] Hint Resolve quiet_ret quiet_raise quiet_lift quiet_get quiet_bind
  quiet_the_tokenizer quiet_the_model quiet_py_get : quiet.

Lemma bind_result_ok {A B} (c : M A) (k : A -> M B) (st : State) (a : A) :
  result (c st) = inr a ->
  result (bind c k st) = result (k a (final (c st))) /\
  final (bind c k st) = final (k a (final (c st))) /\
  events (bind c k st) = events (c st) ++ events (k a (final (c st))).
Proof. intros H. unfold bind. rewrite H. cbn. auto. Qed.

Lemma bind_result_err {A B} (c : M A) (k : A -> M B) (st : State) (e : exn) :
  result (c st) = inl e ->
  result (bind c k st) = inl e /\
  final (bind c k st) = final (c st) /\
  events (bind c k st) = events (c st).
Proof. intros H. unfold bind. rewrite H. cbn. auto. Qed.

(** What follows [initialize_model()] in the two generators is quiet. *)
Lemma generate_embedding_tail_quiet input_text :
  quiet (tk <- the_tokenizer ;;
         encoded_input <- lift (tokenizer_call tk input_text 512) ;;
         md <- the_model ;;
         model_output <- lift (model_forward md encoded_input) ;;
         match normalize (average_pool model_output (attention_mask encoded_input)) with
         | v :: _ => ret v
         | [] => raise (Exn "index 0 is out of bounds for dimension 0 with size 0")
         end).
Proof.
  repeat (first [apply quiet_bind; [auto with quiet|] | intro]).
  destruct (normalize _); auto with quiet.
Qed.

Lemma generate_embeddings_tail_quiet input_texts :
  quiet (tk <- the_tokenizer ;;
         encoded_input <- lift (tokenizer_call tk input_texts 512) ;;
         md <- the_model ;;
         model_output <- lift (model_forward md encoded_input) ;;
         ret (normalize (average_pool model_output (attention_mask encoded_input)))).
Proof.
  repeat (first [apply quiet_bind; [auto with quiet|] | intro]).
  auto with quiet.
Qed.

(** A generator changes the globals and the outside world only through
    its call of [initialize_model()]. *)
Lemma generate_embedding_effects env text is_query st :
  final (generate_embedding env text is_query st) = final (initialize_model env st) /\
  events (generate_embedding env text is_query st) = events (initialize_model env st).
Proof.
  unfold generate_embedding. apply bind_quiet_r.
  intros _. apply generate_embedding_tail_quiet.
Qed.

Lemma generate_embeddings_effects env texts is_query st :
  final (generate_embeddings env texts is_query st) = final (initialize_model env st) /\
  events (generate_embeddings env texts is_query st) = events (initialize_model env st).
Proof.
  unfold generate_embeddings. apply bind_quiet_r.
  intros _. destruct (negb (truthy texts) || negb (is_list texts)).
  - apply quiet_raise.
  - apply generate_embeddings_tail_quiet.
Qed.

(** The events of [initialize_model] are an initial part of
    [init_events]. *)
Lemma initialize_model_events env st :
  exists n, events (initialize_model env st) = firstn n init_events.
Proof.
  rewrite initialize_model_run. unfold initialize_model_closed.
  destruct (tokenizer st), (model st);
    try (exists 0%nat; reflexivity);
    (destruct (AutoTokenizer_from_pretrained env MODEL_NAME);
     [exists 2%nat; reflexivity|];
     destruct (AutoModel_from_pretrained env MODEL_NAME);
     [exists 3%nat; reflexivity | exists 4%nat; reflexivity]).
Qed.

Lemma firstn_init_events_no_io n :
  Forall (fun ev => is_read ev = false) (firstn n init_events) /\
  responses (firstn n init_events) = [].
Proof.
  do 5 (destruct n as [|n]; [cbn; repeat constructor|]).
  cbn. repeat constructor.
Qed.

(** [process_command], branch by branch: its effects are those of at most
    one call of [initialize_model()]. *)
Lemma process_command_effects env command_json st :
  (final (process_command env command_json st) = st /\
   events (process_command env command_json st) = []) \/
  (final (process_command env command_json st) = final (initialize_model env st) /\
   events (process_command env command_json st) = events (initialize_model env st)).
Proof.
  unfold process_command, process_command_body.
  destruct command_json as [| b | z | q | s | items | fields];
    try (left; split; reflexivity).
  unfold catch, py_get. unfold bind at 1 3 5. cbn -[initialize_model generate_embedding generate_embeddings].
  destruct (eq_str (dict_get "command" JNull fields) "initialize").
  { right. unfold bind. destruct (result (initialize_model env st)) as [e|[]];
      cbn -[initialize_model]; rewrite ?app_nil_r; auto. }
  destruct (eq_str (dict_get "command" JNull fields) "generate_embedding").
  { unfold bind at 1 3 5. cbn -[initialize_model generate_embedding generate_embeddings].
    unfold bind at 1 3 5. cbn -[initialize_model generate_embedding generate_embeddings].
    destruct (negb (truthy (dict_get "text" JNull fields))).
    - left. split; reflexivity.
    - right. unfold bind.
      destruct (generate_embedding_effects env (dict_get "text" JNull fields)
                  (dict_get "is_query" (JBool false) fields) st) as [Hf He].
      destruct (result (generate_embedding env _ _ st)) as [e|v];
        cbn -[initialize_model generate_embedding]; rewrite ?app_nil_r; auto. }
  destruct (eq_str (dict_get "command" JNull fields) "generate_embeddings").
  { unfold bind at 1 3 5. cbn -[initialize_model generate_embedding generate_embeddings].
    unfold bind at 1 3 5. cbn -[initialize_model generate_embedding generate_embeddings].
    destruct (negb (truthy (dict_get "texts" JNull fields))
              || negb (is_list (dict_get "texts" JNull fields))).
    - left. split; reflexivity.
    - right. unfold bind.
      destruct (generate_embeddings_effects env (dict_get "texts" JNull fields)
                  (dict_get "is_query" (JBool false) fields) st) as [Hf He].
      destruct (result (generate_embeddings env _ _ st)) as [e|v];
        cbn -[initialize_model generate_embeddings]; rewrite ?app_nil_r; auto. }
  left. split; reflexivity.
Qed.

(** ** The read loop *)

Lemma process_command_catches env command_json st :
  result (process_command env command_json st)
    = match result (process_command_body env command_json st) with
      | inl e => inr (RError (exn_msg e))
      | inr r => inr r
      end.
Proof.
  unfold process_command, catch.
  destruct (result (process_command_body env command_json st)) eqn:H; cbn; auto.
Qed.

Lemma process_command_returns env command_json st :
  exists r, result (process_command env command_json st) = inr r.
Proof.
  rewrite process_command_catches.
  destruct (result (process_command_body env command_json st)); eauto.
Qed.


(** One turn of the loop: the line is read, at most one initialisation
    takes place, one response is written, and the turn ends normally. *)
Lemma serve_line_run env line st :
  exists n r,
    result (serve_line env line st) = inr tt /\
    events (serve_line env line st)
      = ReadLine line :: firstn n init_events ++ [Stdout r] /\
    (final (serve_line env line st) = st /\ n = 0%nat \/
     final (serve_line env line st) = final (initialize_model env st) /\
     events (initialize_model env st) = firstn n init_events).
Proof.
  unfold serve_line.
  destruct (json_loads env line) as [command_json| |e].
  - destruct (process_command_returns env command_json st) as [r Hr].
    destruct (process_command_effects env command_json st) as [[Hf He]|[Hf He]].
    + exists 0%nat, r. unfold bind, emit. cbn -[process_command].
      rewrite Hr. cbn -[process_command]. rewrite He, Hf. auto.
    + destruct (initialize_model_events env st) as [n Hn].
      exists n, r. unfold bind, emit. cbn -[process_command initialize_model].
      rewrite Hr. cbn -[process_command initialize_model].
      rewrite He, Hf, Hn. auto.
  - exists 0%nat, (RError "Invalid JSON"). cbn. auto.
  - exists 0%nat, (RError (exn_msg e)). cbn. auto.
Qed.

Lemma serve_cons env line rest st :
  result (serve env (line :: rest) st)
    = result (serve env rest (final (serve_line env line st))) /\
  final (serve env (line :: rest) st)
    = final (serve env rest (final (serve_line env line st))) /\
  events (serve env (line :: rest) st)
    = events (serve_line env line st)
      ++ events (serve env rest (final (serve_line env line st))).
Proof.
  destruct (serve_line_run env line st) as (n & r & Hres & _).
  cbn [serve].
  apply (bind_result_ok (serve_line env line) (fun _ => serve env rest) st tt Hres).
Qed.




(** ** When the model is loaded *)

Lemma initialize_model_no_read env st :
  Forall (fun ev => is_read ev = false) (events (initialize_model env st)).
Proof.
  destruct (initialize_model_events env st) as [n ->].
  apply firstn_init_events_no_io.
Qed.

Lemma serve_ready env lines st :
  ready st ->
  final (serve env lines st) = st /\
  Forall (fun ev => is_load ev = false) (events (serve env lines st)).
Proof.
  intros Hr. induction lines as [|line rest IH].
  - cbn. auto.
  - destruct (serve_cons env line rest st) as (_ & -> & ->).
    destruct (serve_line_run env line st) as (n & r & _ & -> & Hfin).
    assert (Hst : final (serve_line env line st) = st /\ firstn n init_events = []).
    { destruct Hfin as [[-> ->]|[-> <-]].
      - auto.
      - rewrite (initialize_model_ready env st Hr). auto. }
    destruct Hst as [-> ->]. destruct IH as [-> Hev].
    split; [reflexivity|].
    cbn. repeat constructor. exact Hev.
Qed.

Lemma loads_precede_reads_app pre post :
  Forall (fun ev => is_read ev = false) pre ->
  Forall (fun ev => is_load ev = false) post ->
  loads_precede_reads (pre ++ post).
Proof.
  intros Hpre Hpost i j ev line Hi Hload Hj.
  destruct (Nat.lt_ge_cases i (List.length pre)) as [Hlt|Hge].
  - destruct (Nat.lt_ge_cases j (List.length pre)) as [Hjlt|Hjge]; [|lia].
    rewrite nth_error_app1 in Hj by assumption.
    apply nth_error_In in Hj.
    rewrite Forall_forall in Hpre. specialize (Hpre _ Hj). discriminate.
  - rewrite nth_error_app2 in Hi by assumption.
    apply nth_error_In in Hi.
    rewrite Forall_forall in Hpost. specialize (Hpost _ Hi). congruence.
Qed.

(** The events of a run: the banner, the events of the initialisation at
    start-up and, when it succeeded, the events of the loop, served from a
    state in which both globals are set. *)
Lemma run_events env lines :
  events (run env lines)
    = Stderr "E5 Embedding Service started"
      :: events (initialize_model env initial_state)
      ++ match result (initialize_model env initial_state) with
         | inl _ => []
         | inr _ => events (serve env lines (final (initialize_model env initial_state)))
         end.
Proof.
  unfold run, main. unfold bind at 1. cbn -[initialize_model].
  f_equal. unfold bind.
  destruct (result (initialize_model env initial_state)); cbn -[initialize_model].
  - rewrite app_nil_r. reflexivity.
  - reflexivity.
Qed.

(** C5, as the code has it: [main] initialises the model at start-up.
    Every run begins with the banner and the attempt to load the
    tokenizer, whatever the input is, and in every run every load comes
    before every line read: no command line is received before the model
    handle is created, and none triggers its creation. *)
Theorem model_loaded_at_startup (env : Env) (lines : list string) :
  (exists rest,
     events (run env lines)
       = Stderr "E5 Embedding Service started"
         :: Stderr "Initializing E5 model..."
         :: LoadTokenizer MODEL_NAME :: rest) /\
  loads_precede_reads (events (run env lines)).
Proof.
  rewrite run_events. split.
  - rewrite initialize_model_run. unfold initialize_model_closed.
    cbn [tokenizer model initial_state].
    destruct (AutoTokenizer_from_pretrained env MODEL_NAME);
      [|destruct (AutoModel_from_pretrained env MODEL_NAME)];
      cbn [events result final firstn init_events app]; eexists; reflexivity.
  - change (?a :: ?l ++ ?m) with ((a :: l) ++ m).
    apply loads_precede_reads_app.
    + constructor; [reflexivity | apply initialize_model_no_read].
    + pose proof (initialize_model_success env initial_state) as Hs.
      destruct (result (initialize_model env initial_state)) as [e|[]].
      * constructor.
      * apply serve_ready. apply Hs. reflexivity.
Qed.

(** C5, as the claim has it, fails: on an empty input the tokenizer and
    the model are loaded although no command line is ever read. *)
Lemma model_loaded_without_command :
  events (run toy_env [])
    = [Stderr "E5 Embedding Service started"; Stderr "Initializing E5 model...";
       LoadTokenizer MODEL_NAME; LoadModel MODEL_NAME;
       Stderr ("Model initialized: " ++ MODEL_NAME)] /\
  ~ lazily_initialized (events (run toy_env [])).
Proof.
  split; [reflexivity|].
  intros H.
  destruct (H 2%nat (LoadTokenizer MODEL_NAME) eq_refl eq_refl)
    as (j & line & Hj & Hnth).
  destruct j as [|[|j]]; cbn in Hnth; try discriminate. lia.
Qed.

(** ** Determinism *)

Lemma initialize_model_agrees env tk md st :
  provides env tk md -> agrees tk md st ->
  result (initialize_model env st) = inr tt /\
  final (initialize_model env st) = loaded tk md.
Proof.
  intros [Htk Hmd] [Ht Hm]. destruct st as [t m]. cbn in Ht, Hm.
  rewrite initialize_model_run. unfold initialize_model_closed, loaded.
  cbn [tokenizer model]. rewrite Htk, Hmd.
  destruct Ht as [-> | ->], Hm as [-> | ->]; cbn [result final]; auto.
Qed.

Lemma format_text_str_repr repr repr' text is_query :
  format_text_for_embedding repr (JStr text) is_query
    = format_text_for_embedding repr' (JStr text) is_query.
Proof. unfold format_text_for_embedding. destruct (truthy is_query); reflexivity. Qed.

(** C9: with the model fixed, the vector (or the failure) of
    [generate_embedding] on a text and a flag is the same from every state
    the process can be in, whether the globals are still unset or already
    hold the model, and in every environment that resolves the model name
    to that model; a call leaves both globals set to the model, so a
    second call repeats the result of the first. *)
Theorem generate_embedding_deterministic (env env' : Env) (tk : Tokenizer) (md : Model)
    (st st' : State) (text : string) (is_query : json) :
  provides env tk md -> provides env' tk md ->
  agrees tk md st -> agrees tk md st' ->
  result (generate_embedding env (JStr text) is_query st)
    = result (generate_embedding env' (JStr text) is_query st') /\
  final (generate_embedding env (JStr text) is_query st) = loaded tk md /\
  result (generate_embedding env' (JStr text) is_query
            (final (generate_embedding env (JStr text) is_query st)))
    = result (generate_embedding env (JStr text) is_query st).
Proof.
  intros Hp Hp' Ha Ha'.
  assert (Hkey : forall e s, provides e tk md -> agrees tk md s ->
            result (generate_embedding e (JStr text) is_query s)
              = result (generate_embedding env (JStr text) is_query (loaded tk md)) /\
            final (generate_embedding e (JStr text) is_query s) = loaded tk md).
  { intros e s He Hs.
    destruct (initialize_model_agrees e tk md s He Hs) as [Hres Hfin].
    split.
    - assert (Hl : agrees tk md (loaded tk md)) by (split; right; reflexivity).
      destruct (initialize_model_agrees env tk md _ Hp Hl) as [Hres' Hfin'].
      unfold generate_embedding.
      rewrite (proj1 (bind_result_ok (initialize_model e) _ s tt Hres)).
      rewrite (proj1 (bind_result_ok (initialize_model env) _ (loaded tk md) tt Hres')).
      rewrite Hfin, Hfin'.
      rewrite (format_text_str_repr (py_repr e) (py_repr env)). reflexivity.
    - destruct (generate_embedding_effects e (JStr text) is_query s) as [-> _].
      exact Hfin. }
  destruct (Hkey env st Hp Ha) as [H1 H2].
  destruct (Hkey env' st' Hp' Ha') as [H1' _].
  split; [congruence|]. split; [exact H2|].
  rewrite H2.
  assert (Hl : agrees tk md (loaded tk md)) by (split; right; reflexivity).
  destruct (Hkey env' (loaded tk md) Hp' Hl) as [-> _]. congruence.
Qed.

Lemma generate_embedding_deterministic_witness :
  result (generate_embedding toy_env (JStr "a") (JBool false) initial_state)
    = result (generate_embedding toy_env (JStr "a") (JBool false)
                (loaded toy_tokenizer toy_model)).
Proof.
  apply (generate_embedding_deterministic toy_env toy_env toy_tokenizer toy_model
           initial_state (loaded toy_tokenizer toy_model) "a" (JBool false)).
  - split; reflexivity.
  - split; reflexivity.
  - split; left; reflexivity.
  - split; right; reflexivity.
Defined.

(** ** Masked mean pooling *)

Lemma length_vadd u v :
  List.length u = List.length v -> List.length (vadd u v) = List.length u.
Proof.
  revert v. induction u as [|x u IH]; intros [|y v] H; cbn in *; try congruence.
  f_equal. apply IH. congruence.
Qed.

Lemma nth_vadd u v k :
  List.length u = List.length v ->
  nth k (vadd u v) 0 = nth k u 0 + nth k v 0.
Proof.
  revert v k. induction u as [|x u IH]; intros [|y v] k H; cbn in *; try congruence.
  - destruct k; lra.
  - destruct k; [reflexivity|]. apply IH. congruence.
Qed.

Lemma nth_zero_fill (v : Vec) k : nth k (map (fun _ => 0) v) 0 = 0.
Proof. revert k. induction v; intros [|k]; cbn; auto. Qed.

Lemma length_sum_seq d row :
  Forall (fun v : Vec => List.length v = d) row ->
  List.length (sum_seq d row) = d.
Proof.
  unfold sum_seq. induction 1 as [|v row Hv Hrow IH]; cbn [fold_right].
  - apply repeat_length.
  - rewrite length_vadd; congruence.
Qed.

Lemma masked_fill_row_shape d h bits :
  Forall (fun v : Vec => List.length v = d) h ->
  Forall (fun v : Vec => List.length v = d) (masked_fill_row h bits).
Proof.
  intros H. revert bits. induction H as [|v h Hv Hh IH]; intros [|b bits]; cbn;
    constructor; auto.
  destruct (Z.eqb b 0); [rewrite length_map|]; assumption.
Qed.

(** Component [k] of the summed, masked hidden states of a row. *)
Lemma nth_masked_sum d h bits k :
  List.length h = List.length bits ->
  Forall (fun v : Vec => List.length v = d) h ->
  nth k (sum_seq d (masked_fill_row h bits)) 0
    = rsum (map (fun j => if Z.eqb (nth j bits 0%Z) 0 then 0
                          else nth k (nth j h []) 0)
                (seq 0 (List.length h))).
Proof.
  intros Hlen Hshape. revert bits Hlen.
  induction Hshape as [|v h Hv Hh IH]; intros [|b bits] Hlen; cbn in Hlen;
    try discriminate.
  - cbn. unfold vzero. destruct (Nat.lt_ge_cases k d).
    + apply nth_repeat_lt. assumption.
    + apply nth_overflow. rewrite repeat_length. assumption.
  - cbn [masked_fill_row sum_seq fold_right List.length seq map rsum].
    rewrite nth_vadd.
    + f_equal.
      * cbn. destruct (Z.eqb b 0); [apply nth_zero_fill | reflexivity].
      * fold (sum_seq d (masked_fill_row h bits)).
        rewrite IH by congruence.
        rewrite <- seq_shift, map_map. reflexivity.
    + fold (sum_seq d (masked_fill_row h bits)).
      rewrite length_sum_seq by (apply masked_fill_row_shape; assumption).
      destruct (Z.eqb b 0); [rewrite length_map|]; assumption.
Qed.

(** On bits, the integer sum of a mask row counts its ones. *)
Lemma mask_sum_count_ones bits :
  Forall is_bit bits -> mask_sum bits = Z.of_nat (count_ones bits).
Proof.
  unfold count_ones. induction 1 as [|b bits Hb Hbits IH]; [reflexivity|].
  cbn [mask_sum fold_right filter]. fold (mask_sum bits). rewrite IH.
  destruct Hb as [-> | ->].
  - change (Z.eqb 0 1) with false. cbn iota. lia.
  - change (Z.eqb 1 1) with true. cbn iota. cbn [List.length].
    rewrite Nat2Z.inj_succ. lia.
Qed.

Lemma nth_map_lt {A B} (f : A -> B) (l : list A) (k : nat) (d : A) (d' : B) :
  (k < List.length l)%nat -> nth k (map f l) d' = f (nth k l d).
Proof.
  intros Hk. rewrite (nth_indep _ d' (f d)) by (rewrite length_map; exact Hk).
  apply map_nth.
Qed.

Lemma pool_row_masked_mean d h bits :
  List.length h = List.length bits ->
  Forall (fun v : Vec => List.length v = d) h ->
  Forall is_bit bits ->
  pool_row d h bits = masked_mean_spec d h bits.
Proof.
  intros Hlen Hshape Hbits. unfold pool_row, masked_mean_spec.
  assert (Hd : List.length (sum_seq d (masked_fill_row h bits)) = d)
    by (apply length_sum_seq, masked_fill_row_shape; assumption).
  apply (nth_ext _ _ 0 0).
  - rewrite !length_map, length_seq. exact Hd.
  - intros k Hk. rewrite length_map, Hd in Hk.
    rewrite (nth_map_lt _ (sum_seq d (masked_fill_row h bits)) k 0 0)
      by (rewrite Hd; exact Hk).
    rewrite (nth_map_lt _ (seq 0 d) k 0%nat 0) by (rewrite length_seq; exact Hk).
    rewrite seq_nth by exact Hk. cbn [Nat.add].
    rewrite (nth_masked_sum d h bits k Hlen Hshape).
    rewrite (mask_sum_count_ones bits Hbits), <- INR_IZR_INZ. reflexivity.
Qed.

Lemma nth_pool_rows d hs mask i :
  List.length hs = List.length mask ->
  (i < List.length hs)%nat ->
  nth i (pool_rows d hs mask) [] = pool_row d (nth i hs []) (nth i mask []).
Proof.
  revert mask i. induction hs as [|h hs IH]; intros [|bits mask] i Hlen Hi;
    cbn in *; try discriminate; try lia.
  destruct i; [reflexivity|]. apply IH; [congruence | lia].
Qed.

Lemma length_pool_rows d hs mask :
  List.length hs = List.length mask ->
  List.length (pool_rows d hs mask) = List.length hs.
Proof.
  revert mask. induction hs as [|h hs IH]; intros [|bits mask] Hlen;
    cbn in *; try discriminate; auto.
Qed.

Lemma shapes_match_nth hs mask i :
  shapes_match hs mask ->
  (i < List.length (hidden hs))%nat ->
  List.length (nth i (hidden hs) []) = List.length (nth i mask []) /\
  Forall (fun v : Vec => List.length v = hidden_dim hs) (nth i (hidden hs) []).
Proof.
  unfold shapes_match. generalize (hidden hs) as rows. intros rows H. revert i.
  induction H as [|h bits rows mask' Hhb Hrest IH]; intros i Hi; cbn in *; [lia|].
  destruct i; [exact Hhb|]. apply IH. lia.
Qed.

(** C1: on hidden states and a mask of matching shape, the mask made of
    bits, [average_pool] returns one vector per row, and the vector of a
    row is the masked mean: entry by entry, the sum over the sequence axis
    of the hidden entries, zero where the mask bit is 0, divided by the
    number of positions whose mask bit is 1. *)
Theorem average_pool_masked_mean (hs : HiddenStates) (mask : list (list Z)) :
  shapes_match hs mask ->
  mask_bits mask ->
  List.length (average_pool hs mask) = List.length (hidden hs) /\
  forall i, (i < List.length (hidden hs))%nat ->
    nth i (average_pool hs mask) []
      = masked_mean_spec (hidden_dim hs) (nth i (hidden hs) []) (nth i mask []).
Proof.
  intros Hshape Hbits. unfold average_pool.
  assert (Hlen : List.length (hidden hs) = List.length mask)
    by (eapply Forall2_length; exact Hshape).
  split; [apply length_pool_rows; exact Hlen|].
  intros i Hi. rewrite nth_pool_rows by assumption.
  destruct (shapes_match_nth hs mask i Hshape Hi) as [Hl Hv].
  apply pool_row_masked_mean; try assumption.
  unfold mask_bits in Hbits. rewrite Forall_forall in Hbits.
  apply Hbits, nth_In. lia.
Qed.

Lemma average_pool_masked_mean_witness :
  nth 0 (average_pool (mkHidden 2 [[[3; 5]; [7; 9]]]) [[1%Z; 0%Z]]) []
    = masked_mean_spec 2 [[3; 5]; [7; 9]] [1%Z; 0%Z].
Proof.
  apply (average_pool_masked_mean (mkHidden 2 [[[3; 5]; [7; 9]]]) [[1%Z; 0%Z]]).
  - repeat constructor.
  - constructor; [|constructor].
    constructor; [right; reflexivity|].
    constructor; [left; reflexivity|]. constructor.
  - cbn. lia.
Defined.

(** ** Normalisation *)

Lemma sum_squares_nonneg v : 0 <= sum_squares v.
Proof.
  unfold sum_squares. induction v as [|x v IH]; cbn [fold_right]; [lra|].
  pose proof (Rle_0_sqr x) as Hx. unfold Rsqr in Hx. lra.
Qed.

Lemma sum_squares_scale v c :
  sum_squares (map (fun x => x / c) v) = sum_squares v * (/ c * / c).
Proof.
  unfold sum_squares. induction v as [|x v IH]; cbn [fold_right map]; [lra|].
  rewrite IH. unfold Rdiv. ring.
Qed.

Lemma normalize_eps_pos : 0 < normalize_eps.
Proof. unfold normalize_eps. apply Rinv_0_lt_compat. lra. Qed.

Lemma l2_norm_nonneg v : 0 <= l2_norm v.
Proof. apply sqrt_pos. Qed.

Lemma l2_norm_sqr v : l2_norm v * l2_norm v = sum_squares v.
Proof. apply sqrt_sqrt, sum_squares_nonneg. Qed.

(** A row whose norm reaches [eps] is scaled to norm 1. *)
Lemma normalize_row_unit p :
  normalize_eps <= l2_norm p -> l2_norm (normalize_row p) = 1.
Proof.
  intros Hp. pose proof normalize_eps_pos as Heps.
  unfold normalize_row. rewrite Rmax_left by exact Hp.
  unfold l2_norm at 1. rewrite sum_squares_scale, <- l2_norm_sqr.
  replace (l2_norm p * l2_norm p * (/ l2_norm p * / l2_norm p)) with 1
    by (field; lra).
  apply sqrt_1.
Qed.

(** A row whose norm stays below [eps] is scaled by [1/eps]. *)
Lemma normalize_row_short p :
  l2_norm p < normalize_eps ->
  l2_norm (normalize_row p) = l2_norm p / normalize_eps /\
  l2_norm (normalize_row p) < 1.
Proof.
  intros Hp. pose proof normalize_eps_pos as Heps.
  assert (Hn : l2_norm (normalize_row p) = l2_norm p / normalize_eps).
  { unfold normalize_row. rewrite Rmax_right by lra.
    unfold l2_norm at 1. rewrite sum_squares_scale.
    rewrite sqrt_mult_alt by apply sum_squares_nonneg.
    fold (l2_norm p). unfold Rdiv. f_equal.
    apply sqrt_square. left. apply Rinv_0_lt_compat. exact Heps. }
  split; [exact Hn|]. rewrite Hn.
  apply (Rmult_lt_reg_r normalize_eps); [exact Heps|].
  unfold Rdiv. rewrite Rmult_assoc, Rinv_l by lra. lra.
Qed.


(** What a successful call of a generator has computed. *)
Lemma generate_embedding_inv env text is_query st v :
  result (generate_embedding env text is_query st) = inr v ->
  exists p rest,
    pooled_by (final (generate_embedding env text is_query st))
              (format_text_for_embedding (py_repr env) text is_query) (p :: rest) /\
    v = normalize_row p.
Proof.
  destruct (generate_embedding_effects env text is_query st) as [-> _].
  unfold generate_embedding. unfold bind at 1.
  destruct (result (initialize_model env st)) as [e|[]];
    cbn -[initialize_model tokenizer_call]; [discriminate|].
  generalize (final (initialize_model env st)) as s. intros s.
  unfold pooled_by, the_tokenizer, the_model, bind, get, lift, ret, raise.
  cbn -[tokenizer_call].
  destruct (tokenizer s) as [tk|]; cbn -[tokenizer_call]; [|discriminate].
  destruct (tokenizer_call tk _ 512) as [e|enc] eqn:Henc; cbn; [discriminate|].
  destruct (model s) as [md|]; cbn; [|discriminate].
  destruct (model_forward md enc) as [e|hs] eqn:Hhs; cbn; [discriminate|].
  destruct (average_pool hs (attention_mask enc)) as [|p rest] eqn:Hpool; cbn;
    [discriminate|].
  intros [= <-]. exists p, rest. split; [|reflexivity].
  exists tk, md, enc, hs. auto.
Qed.

Lemma generate_embeddings_inv env texts is_query st vs :
  result (generate_embeddings env texts is_query st) = inr vs ->
  exists items ps,
    texts = JArr items /\
    pooled_by (final (generate_embeddings env texts is_query st))
              (JArr (map (fun text => format_text_for_embedding (py_repr env) text is_query)
                         items)) ps /\
    vs = map normalize_row ps.
Proof.
  destruct (generate_embeddings_effects env texts is_query st) as [-> _].
  unfold generate_embeddings. unfold bind at 1.
  destruct (result (initialize_model env st)) as [e|[]];
    cbn -[initialize_model tokenizer_call]; [discriminate|].
  generalize (final (initialize_model env st)) as s. intros s.
  destruct (negb (truthy texts) || negb (is_list texts)) eqn:Hguard;
    [cbn -[tokenizer_call]; discriminate|].
  destruct texts as [| b | z | q | t | items | fields];
    try (cbn in Hguard; rewrite ?orb_true_r in Hguard; discriminate).
  unfold pooled_by, the_tokenizer, the_model, bind, get, lift, ret, raise.
  cbn -[tokenizer_call]. destruct (tokenizer s) as [tk|]; cbn -[tokenizer_call];
    [|discriminate].
  match goal with
  | |- context [tokenizer_call tk ?x 512] =>
      destruct (tokenizer_call tk x 512) as [e|enc] eqn:Henc
  end; cbn; [discriminate|].
  destruct (model s) as [md|]; cbn; [|discriminate].
  destruct (model_forward md enc) as [e|hs] eqn:Hhs; cbn; [discriminate|].
  intros [= <-]. exists items, (average_pool hs (attention_mask enc)).
  split; [reflexivity|]. split; [|reflexivity].
  exists tk, md, enc, hs. auto.
Qed.




(** ** Batches and single texts *)

Lemma vadd_zero_fill (v w : Vec) :
  List.length v = List.length w -> vadd (map (fun _ => 0) v) w = w.
Proof.
  revert w. induction v as [|x v IH]; intros [|y w] H; cbn in *; try congruence.
  rewrite Rplus_0_l. f_equal. apply IH. congruence.
Qed.

(** Padded positions add nothing to the sum. *)
Lemma sum_seq_padding d h m :
  Forall (fun v : Vec => List.length v = d) h ->
  sum_seq d (masked_fill_row h (repeat 0%Z m)) = vzero d.
Proof.
  intros H. revert m. unfold sum_seq.
  induction H as [|v h Hv Hh IH]; intros [|m]; cbn [repeat masked_fill_row fold_right];
    try reflexivity.
  change (Z.eqb 0 0) with true. cbn iota. rewrite IH.
  apply vadd_zero_fill. unfold vzero. rewrite repeat_length. exact Hv.
Qed.

(** The sum of a padded row is the sum over its real positions. *)
Lemma sum_seq_masked_prefix d h n m :
  Forall (fun v : Vec => List.length v = d) h ->
  sum_seq d (masked_fill_row h (repeat 1%Z n ++ repeat 0%Z m))
    = sum_seq d (firstn n h).
Proof.
  intros H. revert h H. induction n as [|n IH]; intros h H.
  - cbn [repeat app firstn]. apply sum_seq_padding. exact H.
  - destruct H as [|v h Hv Hh]; [reflexivity|].
    cbn [repeat app masked_fill_row firstn]. change (Z.eqb 1 0) with false. cbn iota.
    unfold sum_seq in *. cbn [fold_right]. rewrite IH by exact Hh. reflexivity.
Qed.

Lemma mask_sum_padded n m :
  mask_sum (repeat 1%Z n ++ repeat 0%Z m) = Z.of_nat n.
Proof.
  unfold mask_sum. induction n as [|n IH].
  - cbn [repeat app]. induction m as [|m IHm]; cbn [repeat fold_right]; [reflexivity|].
    rewrite IHm. reflexivity.
  - cbn [repeat app fold_right]. rewrite IH. lia.
Qed.

Lemma pool_row_padded d h n m :
  Forall (fun v : Vec => List.length v = d) h ->
  pool_row d h (repeat 1%Z n ++ repeat 0%Z m)
    = map (fun x => x / IZR (Z.of_nat n)) (sum_seq d (firstn n h)).
Proof.
  intros H. unfold pool_row. cbv zeta.
  rewrite sum_seq_masked_prefix by exact H. rewrite mask_sum_padded. reflexivity.
Qed.

Lemma strings_of_strs texts : strings_of (map JStr texts) = Some texts.
Proof. induction texts as [|t texts IH]; cbn; [reflexivity|]. rewrite IH. reflexivity. Qed.

Lemma format_text_str repr text is_query :
  format_text_for_embedding repr (JStr text) is_query = JStr (formatted is_query text).
Proof. unfold format_text_for_embedding, formatted. destruct (truthy is_query); reflexivity. Qed.

Lemma format_text_strs repr texts is_query :
  map (fun text => format_text_for_embedding repr text is_query) (map JStr texts)
    = map JStr (map (formatted is_query) texts).
Proof.
  rewrite !map_map. apply map_ext. intros t. apply format_text_str.
Qed.

Lemma tokenizer_call_strs tk texts :
  texts <> [] ->
  tokenizer_call tk (JArr (map JStr texts)) 512 = inr (encode_batch tk 512 texts).
Proof.
  intros Hne. unfold tokenizer_call.
  destruct texts as [|t texts]; [congruence|].
  cbn [map]. change (JStr t :: map JStr texts) with (map JStr (t :: texts)).
  rewrite strings_of_strs. reflexivity.
Qed.

(** The mask row and the hidden row of text [i] in a batch. *)
Lemma attention_mask_nth tk texts i :
  (i < List.length texts)%nat ->
  exists m,
    nth i (attention_mask (encode_batch tk 512 texts)) []
      = repeat 1%Z (List.length (tokenize_one tk 512 (nth i texts EmptyString)))
        ++ repeat 0%Z m.
Proof.
  intros Hi. unfold encode_batch. cbn [attention_mask].
  eexists.
  rewrite (nth_map_lt _ (map (tokenize_one tk 512) texts) i [] [])
    by (rewrite length_map; exact Hi).
  rewrite (nth_map_lt _ texts i EmptyString []) by exact Hi.
  reflexivity.
Qed.

Lemma attention_mask_single tk text :
  attention_mask (encode_batch tk 512 [text])
    = [repeat 1%Z (List.length (tokenize_one tk 512 text)) ++ repeat 0%Z 0].
Proof.
  unfold encode_batch. cbn [attention_mask map list_max fold_right].
  rewrite Nat.max_0_r, Nat.sub_diag. reflexivity.
Qed.

Lemma length_attention_mask tk texts :
  List.length (attention_mask (encode_batch tk 512 texts)) = List.length texts.
Proof. unfold encode_batch. cbn [attention_mask]. rewrite !length_map. reflexivity. Qed.

Lemma generate_embeddings_loaded env tk md st texts is_query hs :
  provides env tk md -> agrees tk md st -> texts <> [] ->
  model_forward md (encode_batch tk 512 (map (formatted is_query) texts)) = inr hs ->
  result (generate_embeddings env (JArr (map JStr texts)) is_query st)
    = inr (normalize
             (average_pool hs
                (attention_mask
                   (encode_batch tk 512 (map (formatted is_query) texts))))).
Proof.
  intros Hp Ha Hne Hhs.
  destruct (initialize_model_agrees env tk md st Hp Ha) as [Hres Hfin].
  unfold generate_embeddings.
  rewrite (proj1 (bind_result_ok (initialize_model env) _ st tt Hres)), Hfin.
  assert (Hguard : negb (truthy (JArr (map JStr texts)))
                   || negb (is_list (JArr (map JStr texts))) = false).
  { destruct texts; [congruence | reflexivity]. }
  rewrite Hguard, format_text_strs.
  unfold the_tokenizer, the_model, bind, get, lift, ret, raise, loaded.
  cbn -[tokenizer_call encode_batch average_pool normalize].
  rewrite tokenizer_call_strs
    by (destruct texts; [congruence | discriminate]).
  cbn -[encode_batch average_pool normalize]. rewrite Hhs. reflexivity.
Qed.

Lemma generate_embedding_loaded env tk md st text is_query hs p rest :
  provides env tk md -> agrees tk md st ->
  model_forward md (encode_batch tk 512 [formatted is_query text]) = inr hs ->
  average_pool hs (attention_mask (encode_batch tk 512 [formatted is_query text]))
    = p :: rest ->
  result (generate_embedding env (JStr text) is_query st) = inr (normalize_row p).
Proof.
  intros Hp Ha Hhs Hpool.
  destruct (initialize_model_agrees env tk md st Hp Ha) as [Hres Hfin].
  unfold generate_embedding.
  rewrite (proj1 (bind_result_ok (initialize_model env) _ st tt Hres)), Hfin.
  rewrite format_text_str.
  unfold the_tokenizer, the_model, bind, get, lift, ret, raise, loaded, tokenizer_call.
  cbn -[encode_batch average_pool normalize]. rewrite Hhs.
  cbn -[encode_batch average_pool normalize]. rewrite Hpool. reflexivity.
Qed.

(** C2: for a model whose forward pass keeps the shape of the batch and
    lets neither padding nor the other rows reach the tokens of a text,
    [generate_embeddings] on a non-empty list of strings returns one vector
    per text, and its vector number [i] is the vector [generate_embedding]
    returns for text number [i] alone, whatever states the two calls start
    from. *)
Theorem batch_agrees_with_single (env : Env) (tk : Tokenizer) (md : Model)
    (st st' : State) (texts : list string) (is_query : json) (i : nat) :
  provides env tk md ->
  agrees tk md st -> agrees tk md st' ->
  forward_shaped tk md -> padding_invariant tk md ->
  (i < List.length texts)%nat ->
  exists vs v,
    result (generate_embeddings env (JArr (map JStr texts)) is_query st) = inr vs /\
    result (generate_embedding env (JStr (nth i texts EmptyString)) is_query st') = inr v /\
    List.length vs = List.length texts /\
    nth i vs [] = v.
Proof.
  intros Hp Ha Ha' Hshaped Hinv Hi.
  set (ftexts := map (formatted is_query) texts).
  assert (Hne : texts <> []) by (destruct texts; [cbn in Hi; lia | discriminate]).
  assert (Hfne : ftexts <> []) by (subst ftexts; destruct texts; [congruence | discriminate]).
  assert (Hfi : (i < List.length ftexts)%nat) by (subst ftexts; rewrite length_map; exact Hi).
  assert (Hnth : nth i ftexts EmptyString = formatted is_query (nth i texts EmptyString))
    by (subst ftexts; apply nth_map_lt; exact Hi).
  destruct (Hshaped ftexts Hfne) as (hs & Hhs & Hshape).
  destruct (Hshaped [nth i ftexts EmptyString]) as (hs1 & Hhs1 & Hshape1);
    [discriminate|].
  destruct (Hinv ftexts i hs hs1 Hfi Hhs Hhs1) as [Hdim Hrows].
  set (len := List.length (tokenize_one tk 512 (nth i ftexts EmptyString))) in *.
  (* the single text *)
  rewrite attention_mask_single in Hshape1. fold len in Hshape1.
  unfold shapes_match in Hshape1.
  destruct (hidden hs1) as [|h1 more] eqn:Hh1; [inversion Hshape1|].
  inversion Hshape1 as [|? ? ? ? [Hlen1 Hvec1] Hmore]; subst.
  inversion Hmore; subst.
  assert (Hpool1 : average_pool hs1
                     (attention_mask (encode_batch tk 512 [nth i ftexts EmptyString]))
                   = [pool_row (hidden_dim hs1) h1
                        (repeat 1%Z len ++ repeat 0%Z 0)]).
  { rewrite attention_mask_single. unfold average_pool. rewrite Hh1. reflexivity. }
  rewrite Hnth in Hhs1, Hpool1.
  (* the batch *)
  assert (Hlen : List.length (hidden hs)
                 = List.length (attention_mask (encode_batch tk 512 ftexts)))
    by (eapply Forall2_length; exact Hshape).
  assert (Hib : (i < List.length (hidden hs))%nat)
    by (rewrite Hlen, length_attention_mask; exact Hfi).
  destruct (shapes_match_nth hs _ i Hshape Hib) as [Hleni Hveci].
  destruct (attention_mask_nth tk ftexts i Hfi) as [m Hmask].
  fold len in Hmask. rewrite Hmask in Hleni.
  exists (normalize (average_pool hs (attention_mask (encode_batch tk 512 ftexts)))).
  exists (normalize_row (pool_row (hidden_dim hs1) h1 (repeat 1%Z len ++ repeat 0%Z 0))).
  split; [apply (generate_embeddings_loaded env tk md st texts is_query hs Hp Ha Hne Hhs)|].
  split; [apply (generate_embedding_loaded env tk md st' _ is_query hs1 _ [] Hp Ha' Hhs1 Hpool1)|].
  split.
  - unfold normalize, average_pool. rewrite length_map, length_pool_rows by exact Hlen.
    rewrite Hlen, length_attention_mask. subst ftexts. apply length_map.
  - unfold normalize, average_pool.
    rewrite (nth_map_lt normalize_row _ i [] [])
      by (rewrite length_pool_rows by exact Hlen; exact Hib).
    rewrite nth_pool_rows by assumption.
    rewrite Hmask, Hdim.
    rewrite Hdim in Hvec1.
    rewrite pool_row_padded by exact Hveci.
    rewrite pool_row_padded by exact Hvec1.
    do 3 f_equal.
    rewrite length_app, !repeat_length in Hleni, Hlen1.
    apply (nth_ext _ _ [] []).
    + rewrite !length_firstn. lia.
    + intros j Hj. rewrite length_firstn in Hj.
      rewrite !nth_firstn.
      destruct (j <? len)%nat eqn:Hjl; [|reflexivity].
      apply Nat.ltb_lt in Hjl.
      rewrite (Hrows j Hjl). reflexivity.
Qed.

(** The small model keeps the contract. *)
Lemma toy_forward_shaped tk : forward_shaped tk toy_model.
Proof.
  intros texts _. eexists. split; [reflexivity|].
  unfold shapes_match, encode_batch. cbn [hidden hidden_dim input_ids attention_mask].
  generalize (list_max (map (@List.length Z) (map (tokenize_one tk 512) texts)))
    as width.
  generalize (map (tokenize_one tk 512) texts) as rows.
  intros rows width. induction rows as [|r rows IH]; cbn [map]; constructor; [|exact IH].
  split.
  - rewrite length_map, !length_app, !repeat_length. reflexivity.
  - apply Forall_forall. intros v Hv.
    apply in_map_iff in Hv. destruct Hv as (id & <- & _). reflexivity.
Qed.

Lemma toy_hidden_row (r : list Z) (pad : list Z) (j : nat) :
  (j < List.length r)%nat ->
  nth j (map (fun id => [IZR id; 1]) (r ++ pad)) [] = [IZR (nth j r 0%Z); 1].
Proof.
  intros Hj.
  rewrite (nth_map_lt _ (r ++ pad) j 0%Z []) by (rewrite length_app; lia).
  rewrite app_nth1 by exact Hj. reflexivity.
Qed.

Lemma toy_padding_invariant tk : padding_invariant tk toy_model.
Proof.
  intros texts i hs hs1 Hi Hhs Hhs1.
  cbn [model_forward toy_model] in Hhs, Hhs1.
  injection Hhs as <-. injection Hhs1 as <-.
  split; [reflexivity|]. intros j Hj.
  unfold encode_batch. cbn [hidden input_ids map nth].
  rewrite !map_map.
  rewrite (nth_map_lt _ texts i EmptyString []) by exact Hi.
  rewrite !toy_hidden_row by exact Hj. reflexivity.
Qed.

Lemma batch_agrees_with_single_witness :
  exists vs v,
    result (generate_embeddings toy_env (JArr (map JStr ["ab"; "a"])) (JBool false)
              initial_state) = inr vs /\
    result (generate_embedding toy_env (JStr (nth 1 ["ab"; "a"] EmptyString)) (JBool false)
              initial_state) = inr v /\
    List.length vs = List.length ["ab"; "a"] /\
    nth 1 vs [] = v.
Proof.
  apply (batch_agrees_with_single toy_env toy_tokenizer toy_model
           initial_state initial_state ["ab"; "a"] (JBool false) 1).
  - split; reflexivity.
  - split; left; reflexivity.
  - split; left; reflexivity.
  - apply toy_forward_shaped.
  - apply toy_padding_invariant.
  - cbn. lia.
Defined.

(** * Further properties of the service *)

(** ** Dispatch: what is refused before the pipeline *)

(** X1: a [generate_embedding] command whose [text] is missing or falsy
    (null, the empty string, 0, an empty list, ...) is answered with
    [No text provided]; the globals are untouched and nothing is loaded. *)
Theorem missing_text_rejected (env : Env) (st : State)
    (fields : list (string * json)) :
  has_command "generate_embedding" fields ->
  truthy (dict_get "text" JNull fields) = false ->
  process_command env (JObj fields) st
    = {| result := inr (RError "No text provided"); final := st; events := [] |}.
Proof.
  intros Hc Ht. apply dict_get_command in Hc.
  unfold process_command, process_command_body, catch, bind, py_get.
  cbn. rewrite Hc. cbn. rewrite Ht. reflexivity.
Qed.

Lemma missing_text_rejected_witness :
  process_command toy_env
      (JObj [("command", JStr "generate_embedding"); ("text", JStr "")])
      initial_state
    = {| result := inr (RError "No text provided");
         final := initial_state; events := [] |}.
Proof.
  apply (missing_text_rejected toy_env initial_state
           [("command", JStr "generate_embedding"); ("text", JStr "")]);
    reflexivity.
Defined.

(** X2: a command name that is a string other than the three known ones
    is answered with [Unknown command:] followed by the name; the globals
    are untouched and nothing is loaded. *)
Theorem unknown_command_named (env : Env) (st : State)
    (fields : list (string * json)) (name : string) :
  has_command name fields ->
  name <> "initialize" ->
  name <> "generate_embedding" ->
  name <> "generate_embeddings" ->
  process_command env (JObj fields) st
    = {| result := inr (RError ("Unknown command: " ++ name));
         final := st; events := [] |}.
Proof.
  intros Hc H1 H2 H3. apply dict_get_command in Hc.
  apply String.eqb_neq in H1, H2, H3.
  unfold process_command, process_command_body, catch, bind, py_get.
  cbn. rewrite Hc. unfold eq_str. rewrite H1, H2, H3. reflexivity.
Qed.

Lemma unknown_command_named_witness :
  process_command toy_env (JObj [("command", JStr "foo")]) initial_state
    = {| result := inr (RError "Unknown command: foo");
         final := initial_state; events := [] |}.
Proof.
  apply (unknown_command_named toy_env initial_state [("command", JStr "foo")] "foo");
    [reflexivity | discriminate | discriminate | discriminate].
Defined.

(** X3: a line that parses to anything but an object (a list, a string,
    a number, a boolean, null) makes [command_json.get] raise; the
    exception is caught and answered with the interpreter's message for
    the type; the globals are untouched and nothing is loaded. *)
Theorem non_object_rejected (env : Env) (st : State) (value : json) :
  (forall fields, value <> JObj fields) ->
  process_command env value st
    = {| result := inr (RError ("'" ++ type_name value
                                ++ "' object has no attribute 'get'"));
         final := st; events := [] |}.
Proof.
  intros Hno. destruct value; try reflexivity.
  exfalso. eapply Hno. reflexivity.
Qed.

Lemma non_object_rejected_witness :
  process_command toy_env (JArr [JInt 1; JInt 2]) initial_state
    = {| result := inr (RError "'list' object has no attribute 'get'");
         final := initial_state; events := [] |}.
Proof.
  apply (non_object_rejected toy_env initial_state (JArr [JInt 1; JInt 2])).
  intros fields. discriminate.
Defined.

(** ** Dispatch: what reaches the pipeline *)

(** X21: a [generate_embedding] command with a truthy [text] is answered
    from [generate_embedding] on that text, with [is_query] false when the
    field is absent: the embedding it returns, or the message of the
    exception it raises; the command has no effects but those of the
    call. *)
Theorem valid_text_dispatched (env : Env) (st : State)
    (fields : list (string * json)) :
  has_command "generate_embedding" fields ->
  truthy (dict_get "text" JNull fields) = true ->
  result (process_command env (JObj fields) st)
    = match result (generate_embedding env (dict_get "text" JNull fields)
                      (dict_get "is_query" (JBool false) fields) st) with
      | inl e => inr (RError (exn_msg e))
      | inr embedding => inr (REmbedding embedding)
      end /\
  final (process_command env (JObj fields) st)
    = final (generate_embedding env (dict_get "text" JNull fields)
               (dict_get "is_query" (JBool false) fields) st) /\
  events (process_command env (JObj fields) st)
    = events (generate_embedding env (dict_get "text" JNull fields)
                (dict_get "is_query" (JBool false) fields) st).
Proof.
  intros Hc Ht. apply dict_get_command in Hc.
  unfold process_command, process_command_body, catch, bind, py_get.
  cbn -[generate_embedding]. rewrite Hc. cbn -[generate_embedding].
  rewrite Ht. cbn -[generate_embedding].
  destruct (result (generate_embedding env (dict_get "text" JNull fields)
                      (dict_get "is_query" (JBool false) fields) st));
    cbn -[generate_embedding]; rewrite ?app_nil_r; auto.
Qed.

Lemma valid_text_dispatched_witness :
  exists v,
    result (process_command toy_env
              (JObj [("command", JStr "generate_embedding"); ("text", JStr "a")])
              initial_state)
      = inr (REmbedding v).
Proof.
  eexists.
  rewrite (proj1 (valid_text_dispatched toy_env initial_state
                    [("command", JStr "generate_embedding"); ("text", JStr "a")]
                    eq_refl eq_refl)).
  reflexivity.
Defined.

(** ** Start-up and the life of the model handle *)

Lemma run_result env lines :
  result (run env lines)
    = match result (initialize_model env initial_state) with
      | inl e => inl e
      | inr _ => result (serve env lines (final (initialize_model env initial_state)))
      end.
Proof.
  unfold run, main. unfold bind at 1. cbn -[initialize_model].
  unfold bind. destruct (result (initialize_model env initial_state)); reflexivity.
Qed.


(** X4: when the initialisation at start-up raises, [main] ends with that
    exception: no line is read and nothing is written to standard
    output, whatever the input holds. *)
Theorem startup_failure_is_fatal (env : Env) (lines : list string) (e : exn) :
  result (initialize_model env initial_state) = inl e ->
  result (run env lines) = inl e /\
  responses (events (run env lines)) = [] /\
  Forall (fun ev => is_read ev = false) (events (run env lines)).
Proof.
  intros He. rewrite run_result, run_events, He.
  destruct (initialize_model_events env initial_state) as [n ->].
  destruct (firstn_init_events_no_io n) as [Hread Hresp].
  rewrite app_nil_r. split; [reflexivity|]. split.
  - cbn [responses flat_map]. exact Hresp.
  - constructor; [reflexivity | exact Hread].
Qed.

Lemma startup_failure_is_fatal_witness :
  result (run failing_env ["{}"; "{}"]) = inl (Exn "weights not found") /\
  responses (events (run failing_env ["{}"; "{}"])) = [].
Proof.
  pose proof (startup_failure_is_fatal failing_env ["{}"; "{}"]
                (Exn "weights not found") eq_refl) as (H1 & H2 & _).
  split; assumption.
Defined.







(** ** Failed initialisation *)

(** X8: a failed initialisation is not remembered.  From a state whose
    model is unset, after a call of [initialize_model()] that raised, the
    next call loads again, the tokenizer included even when the failed
    call had already set it, and with loaders that now succeed it sets
    both globals to what they return. *)
Theorem failed_initialization_is_retried (env env' : Env) (st : State) (e : exn)
    (tk : Tokenizer) (md : Model) :
  model st = None ->
  result (initialize_model env st) = inl e ->
  provides env' tk md ->
  result (initialize_model env' (final (initialize_model env st))) = inr tt /\
  final (initialize_model env' (final (initialize_model env st))) = loaded tk md /\
  events (initialize_model env' (final (initialize_model env st))) = init_events.
Proof.
  intros Hm He [Htk Hmd].
  assert (Hnext : forall s, model s = None ->
            initialize_model env' s
              = {| result := inr tt; final := loaded tk md; events := init_events |}).
  { intros [t0 m0] H0. cbn in H0. subst m0.
    rewrite initialize_model_run. unfold initialize_model_closed.
    cbn [tokenizer model]. rewrite Htk, Hmd. destruct t0; reflexivity. }
  assert (Hunset : model (final (initialize_model env st)) = None).
  { revert He. rewrite initialize_model_run. unfold initialize_model_closed.
    rewrite Hm.
    destruct (tokenizer st) as [tk0|];
      (destruct (AutoTokenizer_from_pretrained env MODEL_NAME) as [e1|tk1];
       [|destruct (AutoModel_from_pretrained env MODEL_NAME) as [e2|md2]]);
      cbn [result final model]; intros He; try discriminate; auto. }
  rewrite (Hnext _ Hunset). auto.
Qed.

Lemma failed_initialization_is_retried_witness :
  final (initialize_model failing_env initial_state)
    = {| tokenizer := Some toy_tokenizer; model := None |} /\
  events (initialize_model toy_env (final (initialize_model failing_env initial_state)))
    = init_events.
Proof.
  split; [reflexivity|].
  apply (failed_initialization_is_retried failing_env toy_env initial_state
           (Exn "weights not found") toy_tokenizer toy_model).
  - reflexivity.
  - reflexivity.
  - split; reflexivity.
Defined.

(** X9: an [initialize] command whose initialisation raises is answered
    with the message of the exception; its effects are those of the failed
    initialisation. *)
Theorem initialize_reports_load_failure (env : Env) (st : State)
    (fields : list (string * json)) (e : exn) :
  has_command "initialize" fields ->
  result (initialize_model env st) = inl e ->
  result (process_command env (JObj fields) st) = inr (RError (exn_msg e)) /\
  final (process_command env (JObj fields) st) = final (initialize_model env st) /\
  events (process_command env (JObj fields) st) = events (initialize_model env st).
Proof.
  intros Hc He. apply dict_get_command in Hc.
  unfold process_command, process_command_body, catch, bind, py_get.
  cbn -[initialize_model]. rewrite Hc. cbn -[initialize_model].
  rewrite He. cbn -[initialize_model]. rewrite ?app_nil_r. auto.
Qed.

Lemma initialize_reports_load_failure_witness :
  result (process_command failing_env (JObj [("command", JStr "initialize")])
            initial_state)
    = inr (RError "weights not found").
Proof.
  apply (initialize_reports_load_failure failing_env initial_state
           [("command", JStr "initialize")] (Exn "weights not found"));
    reflexivity.
Defined.

(** ** The generators called directly *)

(** X10: [generate_embeddings] checks its argument after it has
    initialised the model: on a falsy or non-list argument it raises
    [Texts must be a non-empty list of strings] (or the exception of the
    initialisation), and the model has been loaded for it all the same. *)
Theorem generate_embeddings_validates_after_init (env : Env) (texts is_query : json)
    (st : State) :
  truthy texts = false \/ is_list texts = false ->
  result (generate_embeddings env texts is_query st)
    = match result (initialize_model env st) with
      | inl e => inl e
      | inr _ => inl (Exn "Texts must be a non-empty list of strings")
      end /\
  final (generate_embeddings env texts is_query st) = final (initialize_model env st) /\
  events (generate_embeddings env texts is_query st) = events (initialize_model env st).
Proof.
  intros Hbad.
  destruct (generate_embeddings_effects env texts is_query st) as [Hf He].
  split; [|split; assumption].
  unfold generate_embeddings.
  assert (Hguard : negb (truthy texts) || negb (is_list texts) = true)
    by (destruct Hbad as [-> | ->]; [reflexivity | apply orb_true_r]).
  rewrite Hguard. unfold bind.
  destruct (result (initialize_model env st)); reflexivity.
Qed.

Lemma generate_embeddings_validates_after_init_witness :
  result (generate_embeddings toy_env (JArr []) (JBool false) initial_state)
    = inl (Exn "Texts must be a non-empty list of strings") /\
  final (generate_embeddings toy_env (JArr []) (JBool false) initial_state)
    = loaded toy_tokenizer toy_model.
Proof.
  pose proof (generate_embeddings_validates_after_init toy_env (JArr []) (JBool false)
                initial_state (or_introl eq_refl)) as (H1 & H2 & _).
  split; [exact H1 | exact H2].
Defined.

(** ** The two generators compared *)

Lemma generate_embedding_result env text is_query st :
  result (generate_embedding env text is_query st)
    = match result (initialize_model env st) with
      | inl e => inl e
      | inr _ =>
          first_row (pipeline (final (initialize_model env st))
                       (format_text_for_embedding (py_repr env) text is_query))
      end.
Proof.
  unfold generate_embedding. unfold bind at 1.
  destruct (result (initialize_model env st)) as [e|[]];
    cbn -[initialize_model tokenizer_call]; [reflexivity|].
  generalize (final (initialize_model env st)) as s. intros s.
  unfold pipeline, first_row, the_tokenizer, the_model, bind, get, lift, ret, raise.
  cbn -[tokenizer_call].
  destruct (tokenizer s) as [tk|]; cbn -[tokenizer_call]; [|reflexivity].
  destruct (tokenizer_call tk _ 512) as [e|enc]; cbn; [reflexivity|].
  destruct (model s) as [md|]; cbn; [|reflexivity].
  destruct (model_forward md enc) as [e|hs]; cbn; [reflexivity|].
  destruct (normalize (average_pool hs (attention_mask enc))); reflexivity.
Qed.

Lemma generate_embeddings_result env items is_query st :
  items <> [] ->
  result (generate_embeddings env (JArr items) is_query st)
    = match result (initialize_model env st) with
      | inl e => inl e
      | inr _ =>
          pipeline (final (initialize_model env st))
            (JArr (map (fun text => format_text_for_embedding (py_repr env) text is_query)
                       items))
      end.
Proof.
  intros Hne. unfold generate_embeddings. unfold bind at 1.
  destruct (result (initialize_model env st)) as [e|[]];
    cbn -[initialize_model tokenizer_call]; [reflexivity|].
  generalize (final (initialize_model env st)) as s. intros s.
  destruct items as [|item items]; [congruence|].
  cbn -[tokenizer_call].
  unfold pipeline, the_tokenizer, the_model, bind, get, lift, ret, raise.
  cbn -[tokenizer_call].
  destruct (tokenizer s) as [tk|]; cbn -[tokenizer_call]; [|reflexivity].
  match goal with
  | |- context [tokenizer_call tk ?x 512] =>
      destruct (tokenizer_call tk x 512) as [e|enc]
  end; cbn; [reflexivity|].
  destruct (model s) as [md|]; cbn; [|reflexivity].
  destruct (model_forward md enc) as [e|hs]; reflexivity.
Qed.

(** X11: with a falsy [is_query], [generate_embedding] passes a non-empty
    list through to the tokenizer as a batch and returns the vector of its
    first row only: its result is the first of the vectors that
    [generate_embeddings] returns for the same list, and it fails where
    that fails. *)
Theorem generate_embedding_of_list (env : Env) (items : list json) (is_query : json)
    (st : State) :
  truthy is_query = false ->
  items <> [] ->
  result (generate_embedding env (JArr items) is_query st)
    = first_row (result (generate_embeddings env (JArr items) is_query st)).
Proof.
  intros Hq Hne.
  rewrite generate_embedding_result, generate_embeddings_result by exact Hne.
  unfold format_text_for_embedding. rewrite Hq.
  rewrite map_id.
  destruct (result (initialize_model env st)); reflexivity.
Qed.

Lemma generate_embedding_of_list_witness :
  result (generate_embedding toy_env (JArr [JStr "ab"; JStr "a"]) (JBool false)
            initial_state)
    = first_row (result (generate_embeddings toy_env (JArr [JStr "ab"; JStr "a"])
                           (JBool false) initial_state)).
Proof.
  apply (generate_embedding_of_list toy_env [JStr "ab"; JStr "a"] (JBool false)
           initial_state).
  - reflexivity.
  - discriminate.
Defined.

(** X12: for every tokenizer and model, [generate_embedding] on a string
    returns the first vector that [generate_embeddings] returns for the
    list holding that string alone, and fails where that fails. *)
Theorem generate_embedding_is_singleton_batch (env : Env) (text : string)
    (is_query : json) (st : State) :
  result (generate_embedding env (JStr text) is_query st)
    = first_row (result (generate_embeddings env (JArr [JStr text]) is_query st)).
Proof.
  rewrite generate_embedding_result, generate_embeddings_result by discriminate.
  cbn [map]. rewrite format_text_str.
  destruct (result (initialize_model env st)); reflexivity.
Qed.

(** X13: the generators look at [is_query] through its truth value only:
    two flags of the same truth value (a boolean, a number, a string, ...)
    give the same outcome, so that any non-empty string, the string
    [false] included, counts as a query. *)
Theorem is_query_truth_value_only (env : Env) (text is_query is_query' : json)
    (st : State) :
  truthy is_query = truthy is_query' ->
  generate_embedding env text is_query st = generate_embedding env text is_query' st /\
  generate_embeddings env text is_query st = generate_embeddings env text is_query' st.
Proof.
  intros Hq.
  assert (Hf : forall t, format_text_for_embedding (py_repr env) t is_query
                         = format_text_for_embedding (py_repr env) t is_query')
    by (intros t; unfold format_text_for_embedding; rewrite Hq; reflexivity).
  split.
  - unfold generate_embedding. rewrite Hf. reflexivity.
  - unfold generate_embeddings.
    rewrite (map_ext _ _ Hf). reflexivity.
Qed.

Lemma is_query_truth_value_only_witness :
  generate_embedding toy_env (JStr "a") (JStr "false") initial_state
    = generate_embedding toy_env (JStr "a") (JBool true) initial_state.
Proof.
  apply (is_query_truth_value_only toy_env (JStr "a") (JStr "false") (JBool true)
           initial_state).
  reflexivity.
Defined.

(** ** Pooling and normalisation, further *)

Lemma pool_rows_app d hs hs' mask mask' :
  List.length hs = List.length mask ->
  pool_rows d (hs ++ hs') (mask ++ mask') = pool_rows d hs mask ++ pool_rows d hs' mask'.
Proof.
  revert mask. induction hs as [|h hs IH]; intros [|bits mask] Hlen; cbn in Hlen;
    try discriminate; [reflexivity|].
  cbn [app pool_rows]. rewrite IH by congruence. reflexivity.
Qed.

Lemma masked_fill_row_app h h' bits bits' :
  List.length h = List.length bits ->
  masked_fill_row (h ++ h') (bits ++ bits')
    = masked_fill_row h bits ++ masked_fill_row h' bits'.
Proof.
  revert bits. induction h as [|v h IH]; intros [|b bits] Hlen; cbn in Hlen;
    try discriminate; [reflexivity|].
  cbn [app masked_fill_row]. rewrite IH by congruence. reflexivity.
Qed.

Lemma mask_sum_app bits bits' : mask_sum (bits ++ bits') = (mask_sum bits + mask_sum bits')%Z.
Proof.
  unfold mask_sum. induction bits as [|b bits IH]; cbn [app fold_right]; [reflexivity|].
  rewrite IH. lia.
Qed.

Lemma mask_sum_zeros m : mask_sum (repeat 0%Z m) = 0%Z.
Proof.
  unfold mask_sum. induction m as [|m IH]; cbn [repeat fold_right]; [reflexivity|].
  rewrite IH. reflexivity.
Qed.

Lemma pool_row_extended d h bits extra :
  List.length h = List.length bits ->
  Forall (fun v : Vec => List.length v = d) extra ->
  pool_row d (h ++ extra) (bits ++ repeat 0%Z (List.length extra)) = pool_row d h bits.
Proof.
  intros Hlen Hextra. unfold pool_row. cbv zeta.
  rewrite masked_fill_row_app by exact Hlen.
  rewrite mask_sum_app, mask_sum_zeros, Z.add_0_r.
  f_equal. unfold sum_seq. rewrite fold_right_app.
  fold (sum_seq d (masked_fill_row extra (repeat 0%Z (List.length extra)))).
  rewrite sum_seq_padding by exact Hextra. reflexivity.
Qed.

(** X14: positions whose mask entry is 0 never reach the pooled vectors:
    extending one row of a batch by further positions, whatever hidden
    vectors they hold, with mask 0, leaves the result of [average_pool]
    unchanged, for that row and for all others. *)
Theorem masked_positions_ignored (d : nat) (pre post : list (list Vec))
    (mpre mpost : list (list Z)) (h extra : list Vec) (bits : list Z) :
  List.length pre = List.length mpre ->
  List.length h = List.length bits ->
  Forall (fun v : Vec => List.length v = d) extra ->
  average_pool (mkHidden d (pre ++ (h ++ extra) :: post))
               (mpre ++ (bits ++ repeat 0%Z (List.length extra)) :: mpost)
    = average_pool (mkHidden d (pre ++ h :: post)) (mpre ++ bits :: mpost).
Proof.
  intros Hpre Hlen Hextra. unfold average_pool. cbn [hidden_dim hidden].
  rewrite !pool_rows_app by exact Hpre. cbn [pool_rows].
  rewrite pool_row_extended by assumption. reflexivity.
Qed.

Lemma masked_positions_ignored_witness :
  average_pool (mkHidden 2 ([] ++ ([[3; 5]] ++ [[7; 9]]) :: []))
               ([] ++ ([1%Z] ++ repeat 0%Z (List.length [[7; 9]])) :: [])
    = average_pool (mkHidden 2 ([] ++ [[3; 5]] :: [])) ([] ++ [1%Z] :: []).
Proof.
  apply (masked_positions_ignored 2 [] [] [] [] [[3; 5]] [[7; 9]] [1%Z]).
  - reflexivity.
  - reflexivity.
  - repeat constructor.
Defined.

Lemma pool_rows_shape d hs mask :
  Forall2 (fun (h : list Vec) (bits : list Z) =>
             List.length h = List.length bits /\
             Forall (fun v : Vec => List.length v = d) h) hs mask ->
  Forall (fun v : Vec => List.length v = d) (pool_rows d hs mask).
Proof.
  intros H. induction H as [|h bits rows mask' [Hlen Hvec] Hrest IH];
    cbn [pool_rows]; constructor; [|exact IH].
  unfold pool_row. cbv zeta. rewrite length_map.
  apply length_sum_seq, masked_fill_row_shape. exact Hvec.
Qed.

(** X15: on hidden states and a mask of matching shape, every vector
    [average_pool] returns has as many components as the hidden vectors:
    the result has shape (batch, hidden). *)
Theorem average_pool_shape (hs : HiddenStates) (mask : list (list Z)) :
  shapes_match hs mask ->
  Forall (fun v : Vec => List.length v = hidden_dim hs) (average_pool hs mask).
Proof. intros H. unfold average_pool. apply pool_rows_shape. exact H. Qed.

Lemma average_pool_shape_witness :
  Forall (fun v : Vec => List.length v = 2%nat)
         (average_pool (mkHidden 2 [[[3; 5]; [7; 9]]]) [[1%Z; 0%Z]]).
Proof.
  apply (average_pool_shape (mkHidden 2 [[[3; 5]; [7; 9]]]) [[1%Z; 0%Z]]).
  repeat constructor.
Defined.

Lemma normalize_row_norm_le p : l2_norm (normalize_row p) <= 1.
Proof.
  destruct (Rle_lt_dec normalize_eps (l2_norm p)) as [H|H].
  - rewrite normalize_row_unit by exact H. lra.
  - destruct (normalize_row_short p H) as [_ Hlt]. lra.
Qed.

Lemma component_le_norm (v : Vec) (x : R) : In x v -> Rabs x <= l2_norm v.
Proof.
  intros Hin. rewrite <- sqrt_Rsqr_abs. unfold l2_norm. apply sqrt_le_1_alt.
  unfold Rsqr, sum_squares. induction v as [|y v IH]; [destruct Hin|].
  cbn [fold_right]. pose proof (sum_squares_nonneg v) as Hv. unfold sum_squares in Hv.
  destruct Hin as [-> | Hin].
  - lra.
  - specialize (IH Hin). pose proof (Rle_0_sqr y) as Hy. unfold Rsqr in Hy. lra.
Qed.

Lemma normalize_row_bounded p :
  l2_norm (normalize_row p) <= 1 /\
  Forall (fun x => -1 <= x <= 1) (normalize_row p).
Proof.
  pose proof (normalize_row_norm_le p) as Hn. split; [exact Hn|].
  apply Forall_forall. intros x Hx.
  pose proof (component_le_norm _ x Hx) as Hc.
  revert Hc. unfold Rabs. destruct (Rcase_abs x); lra.
Qed.

(** X16: in exact arithmetic, no vector returned by [generate_embedding]
    or [generate_embeddings] is longer than 1, and every component of a
    returned vector lies between -1 and 1, for every model. *)
Theorem returned_vectors_bounded (env : Env) (text is_query : json) (st : State) :
  (forall v, result (generate_embedding env text is_query st) = inr v ->
     l2_norm v <= 1 /\ Forall (fun x => -1 <= x <= 1) v) /\
  (forall vs, result (generate_embeddings env text is_query st) = inr vs ->
     Forall (fun v => l2_norm v <= 1 /\ Forall (fun x => -1 <= x <= 1) v) vs).
Proof.
  split.
  - intros v Hv.
    destruct (generate_embedding_inv env text is_query st v Hv) as (p & rest & _ & ->).
    apply normalize_row_bounded.
  - intros vs Hvs.
    destruct (generate_embeddings_inv env text is_query st vs Hvs)
      as (items & ps & _ & _ & ->).
    apply Forall_forall. intros v Hv. apply in_map_iff in Hv.
    destruct Hv as (p & <- & _). apply normalize_row_bounded.
Qed.

Lemma returned_vectors_bounded_witness :
  exists v,
    result (generate_embedding toy_env (JStr "a") (JBool false) initial_state) = inr v /\
    l2_norm v <= 1 /\ Forall (fun x => -1 <= x <= 1) v.
Proof.
  eexists. split; [reflexivity|].
  apply (proj1 (returned_vectors_bounded toy_env (JStr "a") (JBool false) initial_state)).
  reflexivity.
Defined.

(** ** Batches, further *)

Lemma length_normalize_row p : List.length (normalize_row p) = List.length p.
Proof. unfold normalize_row. apply length_map. Qed.

(** X17: with a forward pass that keeps the shape of the batch,
    [generate_embeddings] on a non-empty list of strings does not fail: it
    returns one vector per text, each with as many components as the
    hidden vectors of the model. *)
Theorem embeddings_have_hidden_size (env : Env) (tk : Tokenizer) (md : Model)
    (st : State) (texts : list string) (is_query : json) :
  provides env tk md -> agrees tk md st -> forward_shaped tk md ->
  texts <> [] ->
  exists hs vs,
    model_forward md (encode_batch tk 512 (map (formatted is_query) texts)) = inr hs /\
    result (generate_embeddings env (JArr (map JStr texts)) is_query st) = inr vs /\
    List.length vs = List.length texts /\
    Forall (fun v : Vec => List.length v = hidden_dim hs) vs.
Proof.
  intros Hp Ha Hshaped Hne.
  destruct (Hshaped (map (formatted is_query) texts)) as (hs & Hhs & Hshape).
  { destruct texts; [congruence | discriminate]. }
  exists hs. eexists. split; [exact Hhs|].
  split; [apply (generate_embeddings_loaded env tk md st texts is_query hs Hp Ha Hne Hhs)|].
  assert (Hlen : List.length (hidden hs)
                 = List.length (attention_mask
                                  (encode_batch tk 512 (map (formatted is_query) texts))))
    by (eapply Forall2_length; exact Hshape).
  split.
  - unfold normalize, average_pool. rewrite length_map, length_pool_rows by exact Hlen.
    rewrite Hlen, length_attention_mask. apply length_map.
  - unfold normalize, average_pool. apply Forall_forall. intros v Hv.
    apply in_map_iff in Hv. destruct Hv as (p & <- & Hp').
    rewrite length_normalize_row.
    pose proof (pool_rows_shape _ _ _ Hshape) as Hall.
    rewrite Forall_forall in Hall. apply Hall. exact Hp'.
Qed.

Lemma embeddings_have_hidden_size_witness :
  exists hs vs,
    model_forward toy_model
      (encode_batch toy_tokenizer 512 (map (formatted (JBool false)) ["ab"; "a"])) = inr hs /\
    result (generate_embeddings toy_env (JArr (map JStr ["ab"; "a"])) (JBool false)
              initial_state) = inr vs /\
    List.length vs = List.length ["ab"; "a"] /\
    Forall (fun v : Vec => List.length v = hidden_dim hs) vs.
Proof.
  apply (embeddings_have_hidden_size toy_env toy_tokenizer toy_model initial_state
           ["ab"; "a"] (JBool false)).
  - split; reflexivity.
  - split; left; reflexivity.
  - apply toy_forward_shaped.
  - discriminate.
Defined.

(** Under the contract of the model, a batch is answered text by text. *)
Lemma batch_rows_single env tk md st st' texts is_query :
  provides env tk md ->
  agrees tk md st -> agrees tk md st' ->
  forward_shaped tk md -> padding_invariant tk md ->
  texts <> [] ->
  exists vs,
    result (generate_embeddings env (JArr (map JStr texts)) is_query st) = inr vs /\
    List.length vs = List.length texts /\
    forall i, (i < List.length texts)%nat ->
      result (generate_embedding env (JStr (nth i texts EmptyString)) is_query st')
        = inr (nth i vs []).
Proof.
  intros Hp Ha Ha' Hshaped Hinv Hne.
  set (ftexts := map (formatted is_query) texts).
  assert (Hfne : ftexts <> []) by (subst ftexts; destruct texts; [congruence | discriminate]).
  destruct (Hshaped ftexts Hfne) as (hs & Hhs & Hshape).
  assert (Hlen : List.length (hidden hs)
                 = List.length (attention_mask (encode_batch tk 512 ftexts)))
    by (eapply Forall2_length; exact Hshape).
  exists (normalize (average_pool hs (attention_mask (encode_batch tk 512 ftexts)))).
  split; [apply (generate_embeddings_loaded env tk md st texts is_query hs Hp Ha Hne Hhs)|].
  split.
  { unfold normalize, average_pool. rewrite length_map, length_pool_rows by exact Hlen.
    rewrite Hlen, length_attention_mask. subst ftexts. apply length_map. }
  intros i Hi.
  assert (Hfi : (i < List.length ftexts)%nat) by (subst ftexts; rewrite length_map; exact Hi).
  assert (Hnth : nth i ftexts EmptyString = formatted is_query (nth i texts EmptyString))
    by (subst ftexts; apply nth_map_lt; exact Hi).
  destruct (Hshaped [nth i ftexts EmptyString]) as (hs1 & Hhs1 & Hshape1);
    [discriminate|].
  destruct (Hinv ftexts i hs hs1 Hfi Hhs Hhs1) as [Hdim Hrows].
  set (len := List.length (tokenize_one tk 512 (nth i ftexts EmptyString))) in *.
  rewrite attention_mask_single in Hshape1. fold len in Hshape1.
  unfold shapes_match in Hshape1.
  destruct (hidden hs1) as [|h1 more] eqn:Hh1; [inversion Hshape1|].
  inversion Hshape1 as [|? ? ? ? [Hlen1 Hvec1] Hmore]; subst.
  inversion Hmore; subst.
  assert (Hpool1 : average_pool hs1
                     (attention_mask (encode_batch tk 512 [nth i ftexts EmptyString]))
                   = [pool_row (hidden_dim hs1) h1
                        (repeat 1%Z len ++ repeat 0%Z 0)]).
  { rewrite attention_mask_single. unfold average_pool. rewrite Hh1. reflexivity. }
  rewrite Hnth in Hhs1, Hpool1.
  assert (Hib : (i < List.length (hidden hs))%nat)
    by (rewrite Hlen, length_attention_mask; exact Hfi).
  destruct (shapes_match_nth hs _ i Hshape Hib) as [Hleni Hveci].
  destruct (attention_mask_nth tk ftexts i Hfi) as [m Hmask].
  fold len in Hmask. rewrite Hmask in Hleni.
  rewrite (generate_embedding_loaded env tk md st' _ is_query hs1 _ [] Hp Ha' Hhs1 Hpool1).
  f_equal. unfold normalize, average_pool.
  rewrite (nth_map_lt normalize_row _ i [] [])
    by (rewrite length_pool_rows by exact Hlen; exact Hib).
  rewrite nth_pool_rows by assumption.
  rewrite Hmask, Hdim. rewrite Hdim in Hvec1.
  rewrite pool_row_padded by exact Hvec1.
  rewrite pool_row_padded by exact Hveci.
  do 3 f_equal.
  rewrite length_app, !repeat_length in Hleni, Hlen1.
  apply (nth_ext _ _ [] []).
  - rewrite !length_firstn. lia.
  - intros j Hj. rewrite length_firstn in Hj.
    rewrite !nth_firstn.
    destruct (j <? len)%nat eqn:Hjl; [|reflexivity].
    apply Nat.ltb_lt in Hjl.
    symmetry. rewrite (Hrows j Hjl). reflexivity.
Qed.

(** X18: under the contract of the model, batches compose: the vectors
    for two lists joined are the vectors for the first list followed by
    the vectors for the second. *)
Theorem batch_concatenation (env : Env) (tk : Tokenizer) (md : Model) (st : State)
    (texts texts' : list string) (is_query : json) :
  provides env tk md -> agrees tk md st ->
  forward_shaped tk md -> padding_invariant tk md ->
  texts <> [] -> texts' <> [] ->
  exists vs vs',
    result (generate_embeddings env (JArr (map JStr texts)) is_query st) = inr vs /\
    result (generate_embeddings env (JArr (map JStr texts')) is_query st) = inr vs' /\
    result (generate_embeddings env (JArr (map JStr (texts ++ texts'))) is_query st)
      = inr (vs ++ vs').
Proof.
  intros Hp Ha Hshaped Hinv Hne Hne'.
  destruct (batch_rows_single env tk md st st texts is_query Hp Ha Ha Hshaped Hinv Hne)
    as (vs & Hvs & Hlen & Hrow).
  destruct (batch_rows_single env tk md st st texts' is_query Hp Ha Ha Hshaped Hinv Hne')
    as (vs' & Hvs' & Hlen' & Hrow').
  destruct (batch_rows_single env tk md st st (texts ++ texts') is_query
              Hp Ha Ha Hshaped Hinv) as (ws & Hws & Hlenw & Hroww).
  { destruct texts; [congruence | discriminate]. }
  exists vs, vs'. split; [exact Hvs|]. split; [exact Hvs'|].
  rewrite Hws. f_equal. rewrite length_app in Hlenw.
  unfold Vec in *.
  apply (nth_ext _ _ [] []).
  - rewrite length_app. lia.
  - intros i Hi. rewrite Hlenw in Hi.
    assert (Hi' : (i < List.length (texts ++ texts'))%nat) by (rewrite length_app; exact Hi).
    specialize (Hroww i Hi').
    destruct (Nat.lt_ge_cases i (List.length texts)) as [Hlt|Hge].
    + rewrite app_nth1 in Hroww by exact Hlt.
      rewrite (Hrow i Hlt) in Hroww.
      rewrite app_nth1 by lia. congruence.
    + rewrite app_nth2 in Hroww by exact Hge.
      rewrite (Hrow' (i - List.length texts)%nat) in Hroww by lia.
      rewrite app_nth2 by lia. rewrite Hlen. congruence.
Qed.

Lemma batch_concatenation_witness :
  exists vs vs',
    result (generate_embeddings toy_env (JArr (map JStr ["ab"])) (JBool false)
              initial_state) = inr vs /\
    result (generate_embeddings toy_env (JArr (map JStr ["a"])) (JBool false)
              initial_state) = inr vs' /\
    result (generate_embeddings toy_env (JArr (map JStr (["ab"] ++ ["a"]))) (JBool false)
              initial_state) = inr (vs ++ vs').
Proof.
  apply (batch_concatenation toy_env toy_tokenizer toy_model initial_state
           ["ab"] ["a"] (JBool false)).
  - split; reflexivity.
  - split; left; reflexivity.
  - apply toy_forward_shaped.
  - apply toy_padding_invariant.
  - discriminate.
  - discriminate.
Defined.

(** X19: under the contract of the model, the vector of a text does not
    depend on the batch it is sent in: the same text at any position of any
    two batches gets the same vector. *)
Theorem batch_context_independent (env : Env) (tk : Tokenizer) (md : Model)
    (st st' : State) (texts texts' : list string) (is_query : json) (i j : nat) :
  provides env tk md -> agrees tk md st -> agrees tk md st' ->
  forward_shaped tk md -> padding_invariant tk md ->
  (i < List.length texts)%nat -> (j < List.length texts')%nat ->
  nth i texts EmptyString = nth j texts' EmptyString ->
  exists vs vs',
    result (generate_embeddings env (JArr (map JStr texts)) is_query st) = inr vs /\
    result (generate_embeddings env (JArr (map JStr texts')) is_query st') = inr vs' /\
    nth i vs [] = nth j vs' [].
Proof.
  intros Hp Ha Ha' Hshaped Hinv Hi Hj Heq.
  destruct (batch_rows_single env tk md st st texts is_query Hp Ha Ha Hshaped Hinv)
    as (vs & Hvs & _ & Hrow).
  { destruct texts; [cbn in Hi; lia | discriminate]. }
  destruct (batch_rows_single env tk md st' st texts' is_query Hp Ha' Ha Hshaped Hinv)
    as (vs' & Hvs' & _ & Hrow').
  { destruct texts'; [cbn in Hj; lia | discriminate]. }
  exists vs, vs'. split; [exact Hvs|]. split; [exact Hvs'|].
  specialize (Hrow i Hi). specialize (Hrow' j Hj).
  rewrite Heq in Hrow. congruence.
Qed.

Lemma batch_context_independent_witness :
  exists vs vs',
    result (generate_embeddings toy_env (JArr (map JStr ["ab"; "a"])) (JBool false)
              initial_state) = inr vs /\
    result (generate_embeddings toy_env (JArr (map JStr ["a"; "abc"; "b"])) (JBool false)
              initial_state) = inr vs' /\
    nth 1 vs [] = nth 0 vs' [].
Proof.
  apply (batch_context_independent toy_env toy_tokenizer toy_model
           initial_state initial_state ["ab"; "a"] ["a"; "abc"; "b"] (JBool false) 1 0).
  - split; reflexivity.
  - split; left; reflexivity.
  - split; left; reflexivity.
  - apply toy_forward_shaped.
  - apply toy_padding_invariant.
  - cbn. lia.
  - cbn. lia.
  - reflexivity.
Defined.

(** ** The mean of equal vectors *)

Lemma vadd_self_scaled (v : Vec) (c : R) :
  vadd v (map (fun x => c * x) v) = map (fun x => (c + 1) * x) v.
Proof.
  induction v as [|x v IH]; [reflexivity|].
  cbn [map vadd]. rewrite IH. f_equal. ring.
Qed.

Lemma vzero_scaled (d : nat) (v : Vec) :
  List.length v = d -> vzero d = map (fun x => 0 * x) v.
Proof.
  intros <-. unfold vzero. induction v as [|x v IH]; [reflexivity|].
  cbn [List.length repeat map]. rewrite IH. f_equal. ring.
Qed.

(** The masked sum of a row whose unmasked positions all hold [v] is [v]
    taken as many times as there are unmasked positions. *)
Lemma sum_seq_constant d h bits v :
  List.length v = d ->
  Forall2 (fun (u : Vec) (b : Z) =>
             (b = 0%Z /\ List.length u = d) \/ (b = 1%Z /\ u = v)) h bits ->
  sum_seq d (masked_fill_row h bits)
    = map (fun x => INR (count_ones bits) * x) v.
Proof.
  intros Hv H. unfold sum_seq, count_ones.
  induction H as [|u b h bits Hub Hrest IH]; cbn [masked_fill_row fold_right filter].
  - cbn [List.length INR]. apply vzero_scaled. exact Hv.
  - rewrite IH. destruct Hub as [[-> Hu] | [-> ->]].
    + change (Z.eqb 0 0) with true. change (Z.eqb 0 1) with false. cbn iota.
      apply vadd_zero_fill. rewrite length_map. congruence.
    + change (Z.eqb 1 0) with false. change (Z.eqb 1 1) with true. cbn iota.
      cbn [List.length]. rewrite S_INR. apply vadd_self_scaled.
Qed.

(** X20: mean pooling returns what the tokens agree on: when every
    position of a row whose mask bit is 1 holds the same hidden vector,
    and there is at least one such position, the pooled vector of the row
    is that vector, whatever the masked positions hold. *)
Theorem constant_row_pooled (d : nat) (h : list Vec) (bits : list Z) (v : Vec) :
  List.length v = d ->
  Forall2 (fun (u : Vec) (b : Z) =>
             (b = 0%Z /\ List.length u = d) \/ (b = 1%Z /\ u = v)) h bits ->
  (0 < count_ones bits)%nat ->
  average_pool (mkHidden d [h]) [bits] = [v].
Proof.
  intros Hv H Hpos. unfold average_pool. cbn [hidden_dim hidden pool_rows].
  f_equal. unfold pool_row. cbv zeta.
  rewrite (sum_seq_constant d h bits v Hv H).
  assert (Hbits : Forall is_bit bits).
  { clear Hpos. induction H as [|u b h bits Hub Hrest IH]; constructor; [|exact IH].
    destruct Hub as [[-> _] | [-> _]]; [left | right]; reflexivity. }
  rewrite (mask_sum_count_ones bits Hbits), <- INR_IZR_INZ.
  rewrite map_map.
  assert (Hc : INR (count_ones bits) <> 0) by (apply not_0_INR; lia).
  rewrite <- (map_id v) at 2. apply map_ext. intros x. field. exact Hc.
Qed.

Lemma constant_row_pooled_witness :
  average_pool (mkHidden 2 [[[3; 5]; [7; 9]; [3; 5]]]) [[1%Z; 0%Z; 1%Z]] = [[3; 5]].
Proof.
  apply (constant_row_pooled 2 [[3; 5]; [7; 9]; [3; 5]] [1%Z; 0%Z; 1%Z] [3; 5]).
  - reflexivity.
  - constructor; [right; split; reflexivity|].
    constructor; [left; split; reflexivity|].
    constructor; [right; split; reflexivity|].
    constructor.
  - cbn. lia.
Defined.
